(** * Microwave Memory Agent: tool loop, context trimming, memory and checkpoints

    A shallow embedding of the Python lessons
    [agent_with_memory.py], [memory_with_embeddings.py] and
    [agent_with_behaviors.py], and the properties of their orchestration
    core: the trim policy, the dispatcher boundary, exact and semantic
    memory search, the embedding-backed write and the checkpoint slot.

    Layout: module [Py] holds what the three scripts take from the Python
    runtime (exceptions, [str] methods, [os] and [open], keyword binding);
    one module per script holds its functions under the names the script
    gives them; the properties follow the definitions. *)

From Stdlib Require Import String Ascii List ZArith QArith Bool Lia.
From Stdlib Require Import Qround Permutation Sorted DecimalString.
Import ListNotations.
Set Warnings "-register-all".
Close Scope Q_scope.
Local Open Scope list_scope.
Local Open Scope string_scope.

(* ===================================================================== *)
(** * The Python runtime the scripts rely on *)
(* ===================================================================== *)

Module Py.

(** ** Exceptions and results

    Every exception class the scripts can meet derives from [Exception];
    [str(e)] is the message. What does not derive from it
    ([KeyboardInterrupt], [SystemExit]) comes from outside the program
    and is left out. *)

Inductive exn_class :=
| FileNotFoundError | IsADirectoryError | NotADirectoryError | OSError
| TypeError | AttributeError | KeyError | JSONDecodeError
| EOFError | APIError.

Record exn := mkExn { exn_cls : exn_class; exn_msg : string }.

Definition str_exn (e : exn) : string := exn_msg e.

Definition is_FileNotFoundError (e : exn) : bool :=
  match exn_cls e with FileNotFoundError => true | _ => false end.

Inductive outcome (A : Type) :=
| Ret (a : A)
| Raise (e : exn).
Arguments Ret {A} a.
Arguments Raise {A} e.

(** ** [str] methods

    A [str] is kept as the bytes of its UTF-8 encoding: one text occurs
    in another exactly when its bytes do. *)

Fixpoint startswith (s pre : string) {struct pre} : bool :=
  match pre, s with
  | EmptyString, _ => true
  | String a pre', String b s' => Ascii.eqb a b && startswith s' pre'
  | String _ _, EmptyString => false
  end.

(** [suf == s or s[1:].endswith(suf)]: [s.endswith(suf)]. *)
Fixpoint endswith (s suf : string) : bool :=
  String.eqb s suf ||
  match s with
  | EmptyString => false
  | String _ s' => endswith s' suf
  end.

(** [sub in s]. *)
Fixpoint contains (sub s : string) : bool :=
  startswith s sub ||
  match s with
  | EmptyString => false
  | String _ s' => contains sub s'
  end.

(** [sep.join(parts)]. *)
Definition join (sep : string) (parts : list string) : string :=
  String.concat sep parts.

(** [str.lower] and [str.strip] follow Unicode tables that are not part
    of the scripts; they are taken as given. *)
Class StrMethods := {
  lower : string -> string;
  strip : string -> string
}.

(** ** Python slices on lists *)

(** [l[-n:]] for a positive [n]. *)
Definition last_n {A} (n : nat) (l : list A) : list A :=
  skipn (List.length l - n) l.

(** [l[:k]] for any integer [k]: a negative [k] counts from the end. *)
Definition slice_to {A} (k : Z) (l : list A) : list A :=
  if (0 <=? k)%Z then firstn (Z.to_nat k) l
  else firstn (List.length l - Z.to_nat (- k)) l.

(** [d.get(key)] on a dictionary kept as an association list, a key
    occurring once. *)
Fixpoint assoc {V} (key : string) (d : list (string * V)) : option V :=
  match d with
  | [] => None
  | (k, v) :: d' => if String.eqb k key then Some v else assoc key d'
  end.

(** ** Decoded JSON: the arguments of a tool call *)

Inductive value :=
| VNull
| VBool (b : bool)
| VNum (q : Q)
| VStr (s : string)
| VList (items : list value)
| VDict (fields : list (string * value)).

Definition kwargs := list (string * value).

(** [type(v).__name__]. *)
Definition type_name (v : value) : string :=
  match v with
  | VNull => "NoneType"
  | VBool _ => "bool"
  | VNum q => if Pos.eqb (Qden q) 1 then "int" else "float"
  | VStr _ => "str"
  | VList _ => "list"
  | VDict _ => "dict"
  end.

(** Truth value of an object, as [if x], [x or y] and [not x] test it. *)
Definition truthy (v : value) : bool :=
  match v with
  | VNull => false
  | VBool b => b
  | VNum q => negb (Qeq_bool q 0)
  | VStr s => negb (String.eqb s "")
  | VList items => match items with [] => false | _ => true end
  | VDict fields => match fields with [] => false | _ => true end
  end.

(** ** Structured files

    The embeddings log and the checkpoint slot are written with
    [json.dump] and read back with [json.load]. A file written that way is
    kept as the document it denotes. *)

Record EmbeddingRecord := {
  e_id : string;
  e_filename : string;
  e_content : string;
  e_timestamp : string;
  e_embedding : list Q
}.

Record Checkpoint := {
  cp_timestamp : string;
  cp_task : string;
  cp_status : string;
  cp_completed : list string;
  cp_next_steps : list string;
  cp_blockers : option string
}.

Inductive json_doc :=
| EmbeddingsDoc (entries : list EmbeddingRecord)   (* {"entries": [...]} *)
| CheckpointDoc (cp : Checkpoint).

(** What [json] does with text it did not produce itself, and the text it
    produces, are the library's business. *)
Class JsonCodec := {
  json_dumps : json_doc -> string;
  json_loads_doc : string -> outcome json_doc;
  json_loads : string -> outcome value
}.

(** ** The world: disk and clock *)

Inductive node :=
| File (text : string)
| JsonFile (doc : json_doc)
| Dir
| Broken (e : exn).   (* present, but [open] raises [e] *)

(** [datetime.now()] under the three formats the scripts use. *)
Record Clock := {
  strftime_minute : string;   (* "%Y-%m-%d %H:%M" *)
  strftime_second : string;   (* "%Y-%m-%d %H:%M:%S" *)
  isoformat : string
}.

(** [fs] maps a path, as the scripts spell it, to what is there; its
    order is the order in which a directory is enumerated. Two spellings
    of one path are two keys. [write_fault] says for which paths a write
    to an open file fails (a full disk, a device error). *)
Record World := {
  fs : list (string * node);
  clock : Clock;
  write_fault : string -> option exn
}.

Definition with_fs (w : World) (fs' : list (string * node)) : World :=
  {| fs := fs'; clock := clock w; write_fault := write_fault w |}.

Definition with_clock (w : World) (c : Clock) : World :=
  {| fs := fs w; clock := c; write_fault := write_fault w |}.

(** [w'] differs from [w] at most in what is stored at [path]. *)
Definition same_except (path : string) (w w' : World) : Prop :=
  clock w' = clock w /\
  write_fault w' = write_fault w /\
  forall other, other <> path -> assoc other (fs w') = assoc other (fs w).

Fixpoint fs_set (path : string) (n : node) (l : list (string * node))
  : list (string * node) :=
  match l with
  | [] => [(path, n)]
  | (p, m) :: l' =>
      if String.eqb p path then (p, n) :: l' else (p, m) :: fs_set path n l'
  end.

(** ** Computations: a state and exception monad over the world.
    An exception leaves the world as it was when it was raised. *)

Definition M (A : Type) := World -> outcome A * World.

Definition ret {A} (a : A) : M A := fun w => (Ret a, w).

Definition raise {A} (e : exn) : M A := fun w => (Raise e, w).

Definition bind {A B} (m : M A) (k : A -> M B) : M B :=
  fun w =>
    match m w with
    | (Ret a, w') => k a w'
    | (Raise e, w') => (Raise e, w')
    end.

Definition lift {A} (o : outcome A) : M A := fun w => (o, w).

(** [try: body except Exception as e: handler]. *)
Definition try_except {A} (body : M A) (handler : exn -> M A) : M A :=
  fun w =>
    match body w with
    | (Ret a, w') => (Ret a, w')
    | (Raise e, w') => handler e w'
    end.

(** [try: body except FileNotFoundError: handler]. *)
Definition try_except_FileNotFoundError {A} (body : M A) (handler : M A)
  : M A :=
  try_except body
    (fun e => if is_FileNotFoundError e then handler else raise e).

Declare Scope py_scope.
Delimit Scope py_scope with py.
Notation "x <- m ;; k" := (bind m (fun x => k))
  (at level 61, m at next level, right associativity) : py_scope.
Notation "m ;; k" := (bind m (fun _ => k))
  (at level 61, right associativity) : py_scope.
Local Open Scope py_scope.

(** ** [os] and [open] *)

Definition nl : string := String (Ascii.ascii_of_nat 10) EmptyString.

Definition slash : ascii := Ascii.ascii_of_nat 47.

(** [os.path.join(a, b)] for a directory name [a] without a trailing
    separator: an absolute [b] replaces [a]. *)
Definition os_path_join (a b : string) : string :=
  match b with
  | String c _ => if Ascii.eqb c slash then b else a ++ "/" ++ b
  | EmptyString => a ++ "/" ++ b
  end.

(** The part of a path before its last separator, if it has one. *)
Fixpoint dirname (path : string) : option string :=
  match path with
  | EmptyString => None
  | String c rest =>
      match dirname rest with
      | Some d => Some (String c d)
      | None => if Ascii.eqb c slash then Some EmptyString else None
      end
  end.

Fixpoint remove_prefix (pre s : string) : option string :=
  match pre, s with
  | EmptyString, _ => Some s
  | String a pre', String b s' =>
      if Ascii.eqb a b then remove_prefix pre' s' else None
  | String _ _, EmptyString => None
  end.

(** The entry name of [path] when it lies directly in directory [d]. *)
Definition child_of (d path : string) : option string :=
  match remove_prefix (d ++ "/") path with
  | Some name =>
      if String.eqb name "" then None
      else match dirname name with Some _ => None | None => Some name end
  | None => None
  end.

Fixpoint children (d : string) (l : list (string * node)) : list string :=
  match l with
  | [] => []
  | (p, _) :: l' =>
      match child_of d p with
      | Some name => name :: children d l'
      | None => children d l'
      end
  end.

(** The [OSError]s of a failed [open] or [listdir], worded as the
    interpreter words them. *)
Definition no_such_file (path : string) : exn :=
  mkExn FileNotFoundError ("[Errno 2] No such file or directory: '" ++ path ++ "'").

Definition is_a_directory (path : string) : exn :=
  mkExn IsADirectoryError ("[Errno 21] Is a directory: '" ++ path ++ "'").

Definition not_a_directory (path : string) : exn :=
  mkExn NotADirectoryError ("[Errno 20] Not a directory: '" ++ path ++ "'").

Definition os_path_exists (path : string) : M bool :=
  fun w => (Ret (match assoc path (fs w) with Some _ => true | None => false end), w).

Definition os_listdir (path : string) : M (list string) :=
  fun w =>
    match assoc path (fs w) with
    | Some Dir => (Ret (children path (fs w)), w)
    | Some _ => (Raise (not_a_directory path), w)
    | None => (Raise (no_such_file path), w)
    end.

(** [with open(path, 'r') as f: f.read()]. *)
Definition read_text `{JsonCodec} (path : string) : M string :=
  fun w =>
    match assoc path (fs w) with
    | Some (File text) => (Ret text, w)
    | Some (JsonFile doc) => (Ret (json_dumps doc), w)
    | Some Dir => (Raise (is_a_directory path), w)
    | Some (Broken e) => (Raise e, w)
    | None => (Raise (no_such_file path), w)
    end.

(** [with open(path, 'r') as f: json.load(f)]. *)
Definition read_json `{JsonCodec} (path : string) : M json_doc :=
  fun w =>
    match assoc path (fs w) with
    | Some (File text) => (json_loads_doc text, w)
    | Some (JsonFile doc) => (Ret doc, w)
    | Some Dir => (Raise (is_a_directory path), w)
    | Some (Broken e) => (Raise e, w)
    | None => (Raise (no_such_file path), w)
    end.

(** A new file needs its directory. The empty directory name stands for
    the current or the root directory, which is there. *)
Definition parent_ready (path : string) (l : list (string * node)) : option exn :=
  match dirname path with
  | None | Some EmptyString => None
  | Some d =>
      match assoc d l with
      | Some Dir => None
      | Some _ => Some (not_a_directory path)
      | None => Some (no_such_file path)
      end
  end.

(** [open(path, 'a')] and [open(path, 'w')]: mode ['w'] empties the file
    as soon as it is opened; both create a missing file. *)
Definition open_write (path : string) (append : bool) : M unit :=
  fun w =>
    match assoc path (fs w) with
    | Some (File _) | Some (JsonFile _) =>
        if append then (Ret tt, w)
        else (Ret tt, with_fs w (fs_set path (File "") (fs w)))
    | Some Dir => (Raise (is_a_directory path), w)
    | Some (Broken e) => (Raise e, w)
    | None =>
        match parent_ready path (fs w) with
        | Some e => (Raise e, w)
        | None => (Ret tt, with_fs w (fs_set path (File "") (fs w)))
        end
    end.

(** [f.write(data)] on the file opened at [path]. *)
Definition f_write `{JsonCodec} (path data : string) : M unit :=
  fun w =>
    match write_fault w path with
    | Some e => (Raise e, w)
    | None =>
        match assoc path (fs w) with
        | Some (File text) =>
            (Ret tt, with_fs w (fs_set path (File (text ++ data)) (fs w)))
        | Some (JsonFile doc) =>
            (Ret tt, with_fs w (fs_set path (File (json_dumps doc ++ data)) (fs w)))
        | _ => (Raise (mkExn OSError ("[Errno 9] Bad file descriptor: '" ++ path ++ "'")), w)
        end
    end.

(** [json.dump(doc, f, indent=2)] on a file just opened with mode ['w']. *)
Definition json_dump (doc : json_doc) (path : string) : M unit :=
  fun w =>
    match write_fault w path with
    | Some e => (Raise e, w)
    | None => (Ret tt, with_fs w (fs_set path (JsonFile doc) (fs w)))
    end.

Definition now_strftime_minute : M string :=
  fun w => (Ret (strftime_minute (clock w)), w).

Definition now_strftime_second : M string :=
  fun w => (Ret (strftime_second (clock w)), w).

Definition now_isoformat : M string :=
  fun w => (Ret (isoformat (clock w)), w).

(** ** Keyword binding: [func] called with a dictionary unpacked as keywords

    [params] lists the parameter names of [func] with their defaults.
    A keyword that is no parameter, or a parameter left without a value,
    is a [TypeError]. *)

Fixpoint first_unexpected (params : list (string * option value)) (kw : kwargs)
  : option string :=
  match kw with
  | [] => None
  | (k, _) :: kw' =>
      match assoc k params with
      | Some _ => first_unexpected params kw'
      | None => Some k
      end
  end.

(** The parameters left without a value, and the values of the others. *)
Fixpoint bind_params (params : list (string * option value)) (kw : kwargs)
  : list string * kwargs :=
  match params with
  | [] => ([], [])
  | (p, default) :: params' =>
      let (missing, bound) := bind_params params' kw in
      match (match assoc p kw with Some v => Some v | None => default end) with
      | None => (p :: missing, bound)
      | Some v => (missing, (p, v) :: bound)
      end
  end.

Definition quoted (name : string) : string := "'" ++ name ++ "'".

(** ['a'], ['a' and 'b'], ['a', 'b', and 'c']. *)
Fixpoint name_list (names : list string) : string :=
  match names with
  | [] => ""
  | [a] => quoted a
  | [a; b] => quoted a ++ " and " ++ quoted b
  | a :: ((_ :: _ :: _) as rest) =>
      quoted a ++ ", "
      ++ (match rest with
          | [b; c] => quoted b ++ ", and " ++ quoted c
          | _ => name_list rest
          end)
  end.

Definition missing_arguments (fname : string) (missing : list string) : exn :=
  let n := List.length missing in
  mkExn TypeError
    (fname ++ "() missing " ++ NilEmpty.string_of_uint (Nat.to_uint n)
     ++ " required positional argument" ++ (if Nat.eqb n 1 then "" else "s")
     ++ ": " ++ name_list missing).

Definition bind_kwargs (fname : string) (params : list (string * option value))
  (kw : kwargs) : M kwargs :=
  match first_unexpected params kw with
  | Some k =>
      raise (mkExn TypeError
               (fname ++ "() got an unexpected keyword argument " ++ quoted k))
  | None =>
      match bind_params params kw with
      | ([], bound) => ret bound
      | (missing, _) => raise (missing_arguments fname missing)
      end
  end.

(** The bound arguments under the scripts' annotations. A value of
    another type than the annotation makes the call fail with a
    [TypeError]; Python fails only where the value is first used as a
    [str], and formats it where an f-string takes it. Behind the
    dispatcher both are a text. *)
Definition arg_value (p : string) (bound : kwargs) : value :=
  match assoc p bound with Some v => v | None => VNull end.

Definition arg_str (p : string) (bound : kwargs) : M string :=
  match arg_value p bound with
  | VStr s => ret s
  | _ => raise (mkExn TypeError (p ++ ": str expected"))
  end.

Definition arg_opt_str (p : string) (bound : kwargs) : M (option string) :=
  match arg_value p bound with
  | VStr s => ret (Some s)
  | VNull => ret None
  | _ => raise (mkExn TypeError (p ++ ": str expected"))
  end.

Fixpoint strs_of (items : list value) : option (list string) :=
  match items with
  | [] => Some []
  | VStr s :: items' =>
      match strs_of items' with Some l => Some (s :: l) | None => None end
  | _ :: _ => None
  end.

Definition arg_opt_list (p : string) (bound : kwargs) : M (option (list string)) :=
  match arg_value p bound with
  | VNull => ret None
  | VList items =>
      match strs_of items with
      | Some l => ret (Some l)
      | None => raise (mkExn TypeError (p ++ ": list of str expected"))
      end
  | _ => raise (mkExn TypeError (p ++ ": list expected"))
  end.

Definition arg_int (p : string) (bound : kwargs) : M Z :=
  match arg_value p bound with
  | VNum q =>
      if Pos.eqb (Qden q) 1 then ret (Qnum q)
      else raise (mkExn TypeError (p ++ ": int expected"))
  | _ => raise (mkExn TypeError (p ++ ": int expected"))
  end.

(** A computation that leaves the world as it finds it, whatever it
    returns or raises. *)
Definition reads_only {A} (m : M A) : Prop :=
  forall w, snd (m w) = w.

(** A computation that changes nothing but what is stored at [paths]:
    not the clock, not the faults of the disk, no other file. *)
Definition writes_within (paths : list string) {A} (m : M A) : Prop :=
  forall w,
    clock (snd (m w)) = clock w /\
    write_fault (snd (m w)) = write_fault w /\
    forall other, ~ In other paths ->
      assoc other (fs (snd (m w))) = assoc other (fs w).

End Py.
Export Py.
Local Open Scope py_scope.

(* ===================================================================== *)
(** * agent_with_memory.py *)
(* ===================================================================== *)

Module AgentWithMemory.

(** ** Messages *)

Inductive Role := system | user | assistant | tool.

(** One request of the completion service, as the session stores it:
    [{"id", "type": "function", "function": {"name", "arguments"}}]. *)
Record ToolCall := {
  tc_id : string;
  tc_name : string;
  tc_arguments : string   (* JSON text, decoded when the call is run *)
}.

(** A message dictionary; absent keys are [None]. *)
Record Message := {
  role : Role;
  content : option string;
  tool_calls : option (list ToolCall);
  tool_call_id : option string
}.

(** ** Tool implementations *)

Section Tools.
Context `{StrMethods} `{JsonCodec}.

Definition MEMORY_DIR : string := "./memory".

Definition memory_write (filename content : string) (append : bool) : M string :=
  let filepath := os_path_join MEMORY_DIR (filename ++ ".md") in
  timestamp <- now_strftime_minute ;;
  let entry := nl ++ "## [" ++ timestamp ++ "]" ++ nl ++ content ++ nl in
  try_except
    (open_write filepath append ;;
     (if negb append then f_write filepath ("# " ++ filename ++ nl)
      else ret tt) ;;
     f_write filepath entry ;;
     ret ("✓ Saved to memory: " ++ filename ++ ".md"))
    (fun e => ret ("Error writing memory: " ++ str_exn e)).

(** The body of the [for filename in os.listdir(MEMORY_DIR)] loop of
    [memory_search]: a file that cannot be read is passed over. *)
Fixpoint search_notes (query_lower : string) (filenames : list string)
  (results : list string) : M (list string) :=
  match filenames with
  | [] => ret results
  | filename :: rest =>
      if endswith filename ".md" then
        let filepath := os_path_join MEMORY_DIR filename in
        results' <-
          try_except
            (content <- read_text filepath ;;
             let hit := "=== " ++ filename ++ " ===" ++ nl ++ content in
             if contains query_lower (lower content)
             then ret (results ++ [hit])%list
             else ret results)
            (fun _ => ret results) ;;
        search_notes query_lower rest results'
      else search_notes query_lower rest results
  end.

Definition memory_search (query : string) : M string :=
  let query_lower := lower query in
  present <- os_path_exists MEMORY_DIR ;;
  if negb present then ret "No memories found. Memory directory is empty."
  else
    filenames <- os_listdir MEMORY_DIR ;;
    results <- search_notes query_lower filenames [] ;;
    match results with
    | _ :: _ => ret (join (nl ++ nl) results)
    | [] => ret ("No memories found matching '" ++ query ++ "'")
    end.

(** The notes that loop keeps from a directory listing, as pairs of file
    name and full text, and the text it makes of each. *)
Definition hits_in (query_lower : string) (w : World) (filenames : list string)
  : list (string * string) :=
  flat_map
    (fun filename =>
       if endswith filename ".md" then
         match fst (read_text (os_path_join MEMORY_DIR filename) w) with
         | Ret content =>
             if contains query_lower (lower content) then [(filename, content)]
             else []
         | Raise _ => []
         end
       else [])
    filenames.

Definition show_hit (hit : string * string) : string :=
  "=== " ++ fst hit ++ " ===" ++ nl ++ snd hit.

Definition memory_list : M string :=
  present <- os_path_exists MEMORY_DIR ;;
  if negb present then ret "No memory files yet."
  else
    names <- os_listdir MEMORY_DIR ;;
    match filter (fun f => endswith f ".md") names with
    | (_ :: _) as files =>
        ret ("Memory files:" ++ nl ++ join nl (map (fun f => "- " ++ f) files))
    | [] => ret "No memory files yet."
    end.

Definition memory_read (filename : string) : M string :=
  let filename :=
    if negb (endswith filename ".md") then filename ++ ".md" else filename in
  let filepath := os_path_join MEMORY_DIR filename in
  try_except (read_text filepath)
    (fun e =>
       if is_FileNotFoundError e
       then ret ("Memory file not found: " ++ filename)
       else ret ("Error reading memory: " ++ str_exn e)).

Definition get_current_time : M string := now_strftime_second.

(** The functions as [TOOL_FUNCTIONS] holds them: called with the decoded
    arguments as keywords. *)
Definition call_memory_write (arguments : kwargs) : M string :=
  bound <- bind_kwargs "memory_write"
             [("filename", None); ("content", None);
              ("append", Some (VBool true))] arguments ;;
  filename <- arg_str "filename" bound ;;
  content <- arg_str "content" bound ;;
  memory_write filename content (truthy (arg_value "append" bound)).

Definition call_memory_search (arguments : kwargs) : M string :=
  bound <- bind_kwargs "memory_search" [("query", None)] arguments ;;
  query <- arg_str "query" bound ;;
  memory_search query.

Definition call_memory_list (arguments : kwargs) : M string :=
  bind_kwargs "memory_list" [] arguments ;;
  memory_list.

Definition call_memory_read (arguments : kwargs) : M string :=
  bound <- bind_kwargs "memory_read" [("filename", None)] arguments ;;
  filename <- arg_str "filename" bound ;;
  memory_read filename.

Definition call_get_current_time (arguments : kwargs) : M string :=
  bind_kwargs "get_current_time" [] arguments ;;
  get_current_time.

Definition TOOL_FUNCTIONS : list (string * (kwargs -> M string)) :=
  [ ("memory_write", call_memory_write);
    ("memory_search", call_memory_search);
    ("memory_list", call_memory_list);
    ("memory_read", call_memory_read);
    ("get_current_time", call_get_current_time) ].

Definition execute_tool (tool_name : string) (arguments : kwargs) : M string :=
  match assoc tool_name TOOL_FUNCTIONS with
  | None => ret ("Error: Unknown tool '" ++ tool_name ++ "'")
  | Some func =>
      try_except (func arguments)
        (fun e => ret ("Error executing " ++ tool_name ++ ": " ++ str_exn e))
  end.

End Tools.

(** ** Context management *)

Definition MAX_MESSAGES : nat := 20.

Definition trim_messages (messages : list Message) : list Message :=
  if Nat.leb (List.length messages) (MAX_MESSAGES + 1) then messages
  else
    match messages with
    | system_msg :: _ => ([system_msg] ++ last_n MAX_MESSAGES messages)%list
    | [] => []   (* not reached: the list is longer than 21 *)
    end.

(** ** The agent loop

    The loop is kept with its state, the message list and the disk; what
    it prints is left out. *)

(** [response.choices[0].message]. *)
Record AssistantMessage := {
  am_content : option string;
  am_tool_calls : option (list ToolCall)
}.

(** The completion service is a black box: its [n]-th call answers the
    history it is sent, or fails. The system prompt is configuration. *)
Class CompletionService := {
  SYSTEM_PROMPT : string;
  chat_completions_create : nat -> list Message -> outcome AssistantMessage
}.

(** What the service was sent, call by call; [after_tools] tells the calls
    that follow a tool batch from the first call of a user turn. The log
    is kept for the statements only. *)
Record Invocation := {
  after_tools : bool;
  sent : list Message
}.

Record Session := {
  messages : list Message;
  world : World;
  log : list Invocation
}.

Inductive status :=
| Answered            (* the inner loop left through [break] *)
| Exited              (* the user typed quit *)
| Uncaught (e : exn)  (* an exception left [main] *)
| OutOfFuel.          (* the model kept asking for tools *)

Definition system_message (text : string) : Message :=
  {| role := system; content := Some text; tool_calls := None; tool_call_id := None |}.

Definition user_message (text : string) : Message :=
  {| role := user; content := Some text; tool_calls := None; tool_call_id := None |}.

Definition assistant_message (text : option string)
  (calls : option (list ToolCall)) : Message :=
  {| role := assistant; content := text; tool_calls := calls; tool_call_id := None |}.

Definition tool_message (id result : string) : Message :=
  {| role := tool; content := Some result; tool_calls := None; tool_call_id := Some id |}.

Definition append_message (m : Message) (s : Session) : Session :=
  {| messages := (messages s ++ [m])%list; world := world s; log := log s |}.

Definition with_world (s : Session) (w : World) : Session :=
  {| messages := messages s; world := w; log := log s |}.

Definition record_invocation (after : bool) (s : Session) : Session :=
  {| messages := messages s; world := world s;
     log := (log s ++ [{| after_tools := after; sent := messages s |}])%list |}.

(** The last message of a history has role [r]. *)
Definition ends_with_role (r : Role) (history : list Message) : Prop :=
  exists before m, history = (before ++ [m])%list /\ role m = r.

Section Loop.
Context `{StrMethods} `{JsonCodec} `{CompletionService}.

(** [for tool_call in assistant_message.tool_calls: ...]. *)
Fixpoint run_tool_calls (calls : list ToolCall) (s : Session)
  : option exn * Session :=
  match calls with
  | [] => (None, s)
  | tool_call :: rest =>
      let tool_name := tc_name tool_call in
      match json_loads (tc_arguments tool_call) with
      | Raise e => (Some e, s)
      | Ret (VDict arguments) =>
          match execute_tool tool_name arguments (world s) with
          | (Ret result, w') =>
              run_tool_calls rest
                (append_message (tool_message (tc_id tool_call) result)
                   (with_world s w'))
          | (Raise e, w') => (Some e, with_world s w')
          end
      | Ret other =>
          (* [arguments.keys()] on something that is no dictionary *)
          (Some (mkExn AttributeError
                   ("'" ++ type_name other ++ "' object has no attribute 'keys'")),
           s)
      end
  end.

(** The inner [while True]: one round per unit of fuel. *)
Fixpoint model_turns (fuel : nat) (after : bool) (s : Session)
  : status * Session :=
  match fuel with
  | O => (OutOfFuel, s)
  | S fuel' =>
      let s1 := record_invocation after s in
      match chat_completions_create (List.length (log s)) (messages s) with
      | Raise e => (Uncaught e, s1)
      | Ret reply =>
          match am_tool_calls reply with
          | Some ((_ :: _) as calls) =>
              let s2 :=
                append_message
                  (assistant_message (am_content reply) (Some calls)) s1 in
              match run_tool_calls calls s2 with
              | (Some e, s3) => (Uncaught e, s3)
              | (None, s3) => model_turns fuel' true s3
              end
          | _ =>
              (Answered,
               append_message (assistant_message (am_content reply) None) s1)
          end
      end
  end.

(** The outer [while True] over the lines typed by the user; [fuel]
    bounds the rounds of each user turn. *)
Fixpoint main_loop (fuel : nat) (lines : list string) (s : Session)
  : status * Session :=
  match lines with
  | [] => (Uncaught (mkExn EOFError "EOF when reading a line"), s)
  | line :: rest =>
      let user_input := strip line in
      if String.eqb (lower user_input) "quit" then (Exited, s)
      else if String.eqb user_input "" then main_loop fuel rest s
      else
        let s1 := append_message (user_message user_input) s in
        let s2 :=
          {| messages := trim_messages (messages s1);
             world := world s1; log := log s1 |} in
        match model_turns fuel false s2 with
        | (Answered, s3) => main_loop fuel rest s3
        | stopped => stopped
        end
  end.

Definition main (fuel : nat) (lines : list string) (w : World)
  : status * Session :=
  main_loop fuel lines
    {| messages := [system_message SYSTEM_PROMPT]; world := w; log := [] |}.

(** *** Vocabulary for the statements about the loop *)



(** One [role: tool] message per request, carrying its id. *)
Definition tool_messages (calls : list ToolCall) (results : list string)
  : list Message :=
  map (fun p => tool_message (tc_id (fst p)) (snd p)) (combine calls results).


(** What every call of the service is sent: a history that begins with
    the system message and ends with the message the call answers. *)
Definition well_formed_call (inv : Invocation) : Prop :=
  (exists rest, sent inv = system_message SYSTEM_PROMPT :: rest) /\
  ends_with_role (if after_tools inv then tool else user) (sent inv).

(** The service never asks for a tool. *)
Definition never_asks : Prop :=
  forall n history reply,
    chat_completions_create n history = Ret reply ->
    am_tool_calls reply = None \/ am_tool_calls reply = Some [].

End Loop.




End AgentWithMemory.

(* ===================================================================== *)
(** * memory_with_embeddings.py *)
(* ===================================================================== *)

Module MemoryWithEmbeddings.

Definition MEMORY_DIR : string := "./memory".
Definition EMBEDDINGS_FILE : string := "./memory/embeddings.json".

(** [get_embedding] asks the embedding service and may fail.
    [cosine_similarity] is computed by numpy in floating point; its
    results are taken as given, a finite double being the rational it
    denotes (a NaN score, from a zero vector, is outside this model).
    [format_2f] is the format specification [:.2f]. *)
Class EmbeddingService := {
  get_embedding : string -> outcome (list Q);
  cosine_similarity : list Q -> list Q -> Q;
  format_2f : Q -> string
}.

Section Tools.
Context `{StrMethods} `{JsonCodec} `{EmbeddingService}.

Definition load_embeddings : M json_doc :=
  present <- os_path_exists EMBEDDINGS_FILE ;;
  if present then read_json EMBEDDINGS_FILE
  else ret (EmbeddingsDoc []).

Definition save_embeddings (data : json_doc) : M unit :=
  open_write EMBEDDINGS_FILE false ;;
  json_dump data EMBEDDINGS_FILE.

(** [data["entries"]]. *)
Definition entries_of (data : json_doc) : M (list EmbeddingRecord) :=
  match data with
  | EmbeddingsDoc entries => ret entries
  | CheckpointDoc _ => raise (mkExn KeyError "'entries'")
  end.

(** The first [try] of [memory_write]: the note file. *)
Definition write_note (filename content timestamp : string) (append : bool)
  : M unit :=
  let filepath := os_path_join MEMORY_DIR (filename ++ ".md") in
  let entry := nl ++ "## [" ++ timestamp ++ "]" ++ nl ++ content ++ nl in
  open_write filepath append ;;
  (if negb append then f_write filepath ("# " ++ filename ++ nl)
   else ret tt) ;;
  f_write filepath entry.

(** The second [try] of [memory_write]: the embedding and the index. *)
Definition index_note (filename content timestamp : string) : M string :=
  embedding <- lift (get_embedding content) ;;
  embeddings_data <- load_embeddings ;;
  entries <- entries_of embeddings_data ;;
  let record :=
    {| e_id := filename ++ "_" ++ timestamp;
       e_filename := filename;
       e_content := content;
       e_timestamp := timestamp;
       e_embedding := embedding |} in
  save_embeddings (EmbeddingsDoc (entries ++ [record])%list) ;;
  ret ("✓ Saved to memory: " ++ filename ++ ".md (with embedding)").

Definition memory_write (filename content : string) (append : bool) : M string :=
  timestamp <- now_strftime_minute ;;
  failed <-
    try_except
      (write_note filename content timestamp append ;; ret None)
      (fun e => ret (Some ("Error writing memory: " ++ str_exn e))) ;;
  match failed with
  | Some message => ret message
  | None =>
      try_except
        (index_note filename content timestamp)
        (fun e => ret ("Saved to file but embedding failed: " ++ str_exn e))
  end.

(** One element of [scored]. *)
Record Scored := {
  similarity : Q;
  s_filename : string;
  s_content : string;
  s_timestamp : string
}.

Definition score (query_embedding : list Q) (entry : EmbeddingRecord) : Scored :=
  {| similarity := cosine_similarity query_embedding (e_embedding entry);
     s_filename := e_filename entry;
     s_content := e_content entry;
     s_timestamp := e_timestamp entry |}.

(** [scored.sort(key=lambda x: x["similarity"], reverse=True)].
    Python's sort is stable, also with [reverse=True]: items with equal
    keys keep their order. A list has one stable descending arrangement,
    and insertion from the right builds it. *)
Fixpoint insert_desc (item : Scored) (sorted : list Scored) : list Scored :=
  match sorted with
  | [] => [item]
  | other :: rest =>
      if Qle_bool (similarity other) (similarity item)
      then item :: other :: rest
      else other :: insert_desc item rest
  end.

Definition sort_desc (scored : list Scored) : list Scored :=
  fold_right insert_desc [] scored.

(** Non-increasing similarity. *)
Definition desc (a b : Scored) : Prop := (similarity b <= similarity a)%Q.

(** The items of a list whose similarity equals [q], in their order. *)
Definition tied (q : Q) (l : list Scored) : list Scored :=
  filter (fun item => Qeq_bool (similarity item) q) l.

(** The literal [0.3]: the double nearest to three tenths. *)
Definition THRESHOLD : Q := 5404319552844595 # 18014398509481984.

Definition DEFAULT_TOP_K : Z := 3.

(** [item["similarity"] > 0.3]. *)
Definition above_threshold (item : Scored) : bool :=
  negb (Qle_bool (similarity item) THRESHOLD).

(** The items the second loop of [memory_search] keeps. *)
Definition top_results (top_k : Z) (scored : list Scored) : list Scored :=
  filter above_threshold (slice_to top_k scored).

Definition format_result (item : Scored) : string :=
  "[" ++ format_2f (similarity item) ++ "] (" ++ s_filename item ++ ", "
  ++ s_timestamp item ++ ")" ++ nl ++ s_content item.

Definition memory_search (query : string) (top_k : Z) : M string :=
  embeddings_data <- load_embeddings ;;
  entries <- entries_of embeddings_data ;;
  match entries with
  | [] => ret "No memories stored yet."
  | _ :: _ =>
      match get_embedding query with
      | Raise e => ret ("Error creating query embedding: " ++ str_exn e)
      | Ret query_embedding =>
          let scored := map (score query_embedding) entries in
          let scored := sort_desc scored in
          let results := map format_result (top_results top_k scored) in
          match results with
          | _ :: _ =>
              ret ("Found relevant memories:" ++ nl ++ nl
                   ++ join (nl ++ nl ++ "---" ++ nl ++ nl) results)
          | [] =>
              ret ("No memories found semantically related to '" ++ query ++ "'")
          end
      end
  end.

Definition memory_read (filename : string) : M string :=
  let filename :=
    if negb (endswith filename ".md") then filename ++ ".md" else filename in
  let filepath := os_path_join MEMORY_DIR filename in
  try_except_FileNotFoundError (read_text filepath)
    (ret ("Memory file not found: " ++ filename)).

(** [memory_search] as [TOOL_FUNCTIONS] calls it: [top_k] is 3 unless the
    arguments say otherwise. *)
Definition call_memory_search (arguments : kwargs) : M string :=
  bound <- bind_kwargs "memory_search"
             [("query", None); ("top_k", Some (VNum (inject_Z DEFAULT_TOP_K)))]
             arguments ;;
  query <- arg_str "query" bound ;;
  top_k <- arg_int "top_k" bound ;;
  memory_search query top_k.

Definition memory_list : M string :=
  names <- os_listdir MEMORY_DIR ;;
  match filter (fun f => endswith f ".md") names with
  | (_ :: _) as files =>
      ret ("Memory files:" ++ nl ++ join nl (map (fun f => "- " ++ f) files))
  | [] => ret "No memory files yet."
  end.

Definition get_current_time : M string := now_strftime_second.

Definition call_memory_write (arguments : kwargs) : M string :=
  bound <- bind_kwargs "memory_write"
             [("filename", None); ("content", None);
              ("append", Some (VBool true))] arguments ;;
  filename <- arg_str "filename" bound ;;
  content <- arg_str "content" bound ;;
  memory_write filename content (truthy (arg_value "append" bound)).

Definition call_memory_list (arguments : kwargs) : M string :=
  bind_kwargs "memory_list" [] arguments ;;
  memory_list.

Definition call_memory_read (arguments : kwargs) : M string :=
  bound <- bind_kwargs "memory_read" [("filename", None)] arguments ;;
  filename <- arg_str "filename" bound ;;
  memory_read filename.

Definition call_get_current_time (arguments : kwargs) : M string :=
  bind_kwargs "get_current_time" [] arguments ;;
  get_current_time.

Definition TOOL_FUNCTIONS : list (string * (kwargs -> M string)) :=
  [ ("memory_write", call_memory_write);
    ("memory_search", call_memory_search);
    ("memory_list", call_memory_list);
    ("memory_read", call_memory_read);
    ("get_current_time", call_get_current_time) ].

Definition execute_tool (tool_name : string) (arguments : kwargs) : M string :=
  match assoc tool_name TOOL_FUNCTIONS with
  | None => ret ("Error: Unknown tool '" ++ tool_name ++ "'")
  | Some func =>
      try_except (func arguments)
        (fun e => ret ("Error: " ++ str_exn e))
  end.

End Tools.

(** The trimming step of [main]:
    [if len(messages) > 21: messages = [messages[0]] + messages[-20:]]. *)
Definition keep_recent (messages : list AgentWithMemory.Message)
  : list AgentWithMemory.Message :=
  if Nat.ltb 21 (List.length messages) then
    match messages with
    | first :: _ => ([first] ++ last_n 20 messages)%list
    | [] => []   (* not reached: the list is longer than 21 *)
    end
  else messages.

End MemoryWithEmbeddings.

(* ===================================================================== *)
(** * agent_with_behaviors.py *)
(* ===================================================================== *)

Module AgentWithBehaviors.

Definition MEMORY_DIR : string := "./memory".
Definition CHECKPOINT_FILE : string := "./memory/checkpoint.json".

Section Tools.
Context `{StrMethods} `{JsonCodec}.

Definition memory_write (filename content : string) : M string :=
  let filepath := os_path_join MEMORY_DIR (filename ++ ".md") in
  timestamp <- now_strftime_minute ;;
  let entry := nl ++ "## [" ++ timestamp ++ "]" ++ nl ++ content ++ nl in
  open_write filepath true ;;
  f_write filepath entry ;;
  ret ("✓ Saved to " ++ filename ++ ".md").

Fixpoint search_notes (query_lower : string) (filenames : list string)
  (results : list string) : M (list string) :=
  match filenames with
  | [] => ret results
  | filename :: rest =>
      if endswith filename ".md" then
        content <- read_text (os_path_join MEMORY_DIR filename) ;;
        let hit := "=== " ++ filename ++ " ===" ++ nl ++ content in
        if contains query_lower (lower content)
        then search_notes query_lower rest (results ++ [hit])%list
        else search_notes query_lower rest results
      else search_notes query_lower rest results
  end.

Definition memory_search (query : string) : M string :=
  let query_lower := lower query in
  present <- os_path_exists MEMORY_DIR ;;
  results <-
    (if present then
       filenames <- os_listdir MEMORY_DIR ;;
       search_notes query_lower filenames []
     else ret []) ;;
  match results with
  | _ :: _ => ret (join (nl ++ nl) results)
  | [] => ret ("No memories found for '" ++ query ++ "'")
  end.

Definition memory_read (filename : string) : M string :=
  let filename :=
    if negb (endswith filename ".md") then filename ++ ".md" else filename in
  let filepath := os_path_join MEMORY_DIR filename in
  try_except_FileNotFoundError (read_text filepath)
    (ret ("File not found: " ++ filename)).

(** [x or []]. *)
Definition or_empty (l : option (list string)) : list string :=
  match l with
  | Some l' => l'
  | None => []
  end.

Definition checkpoint_save (task status : string)
  (completed next_steps : option (list string)) (blockers : option string)
  : M string :=
  timestamp <- now_isoformat ;;
  let checkpoint :=
    {| cp_timestamp := timestamp;
       cp_task := task;
       cp_status := status;
       cp_completed := or_empty completed;
       cp_next_steps := or_empty next_steps;
       cp_blockers := blockers |} in
  open_write CHECKPOINT_FILE false ;;
  json_dump (CheckpointDoc checkpoint) CHECKPOINT_FILE ;;
  ret ("✓ Checkpoint saved: " ++ task ++ " (" ++ status ++ ")").

(** [', '.join(items) if items else otherwise]. *)
Definition joined_or (items : list string) (otherwise : string) : string :=
  match items with
  | _ :: _ => join ", " items
  | [] => otherwise
  end.

(** [blockers or 'None']: an absent and an empty text both give ['None']. *)
Definition blockers_or_None (blockers : option string) : string :=
  match blockers with
  | Some text => if String.eqb text "" then "None" else text
  | None => "None"
  end.

(** The text [checkpoint_load] builds from the loaded dictionary. *)
Definition render_checkpoint (cp : Checkpoint) : string :=
  "Last checkpoint:" ++ nl
  ++ "Task: " ++ cp_task cp ++ nl
  ++ "Status: " ++ cp_status cp ++ nl
  ++ "When: " ++ cp_timestamp cp ++ nl
  ++ "Completed: " ++ joined_or (cp_completed cp) "None yet" ++ nl
  ++ "Next steps: " ++ joined_or (cp_next_steps cp) "None specified" ++ nl
  ++ "Blockers: " ++ blockers_or_None (cp_blockers cp).

Definition checkpoint_load : M string :=
  present <- os_path_exists CHECKPOINT_FILE ;;
  if present then
    data <- read_json CHECKPOINT_FILE ;;
    match data with
    | CheckpointDoc cp => ret (render_checkpoint cp)
    | EmbeddingsDoc _ => raise (mkExn KeyError "'task'")
    end
  else ret "No checkpoint found.".

Definition read_file (path : string) : M string :=
  try_except (read_text path)
    (fun e => ret ("Error: " ++ str_exn e)).

(** [len(content)] in decimal, for ASCII text. *)
Definition len_str (text : string) : string :=
  NilEmpty.string_of_uint (Nat.to_uint (String.length text)).

Definition write_file (path content : string) : M string :=
  try_except
    (open_write path false ;;
     f_write path content ;;
     ret ("✓ Wrote " ++ len_str content ++ " bytes to " ++ path))
    (fun e => ret ("Error: " ++ str_exn e)).

Definition list_files (path : string) : M string :=
  try_except
    (items <- os_listdir path ;;
     match items with
     | _ :: _ => ret (join nl items)
     | [] => ret "(empty)"
     end)
    (fun e => ret ("Error: " ++ str_exn e)).

Definition get_current_time : M string := now_strftime_second.

Definition call_memory_write (args : kwargs) : M string :=
  bound <- bind_kwargs "memory_write"
             [("filename", None); ("content", None)] args ;;
  filename <- arg_str "filename" bound ;;
  content <- arg_str "content" bound ;;
  memory_write filename content.

Definition call_memory_search (args : kwargs) : M string :=
  bound <- bind_kwargs "memory_search" [("query", None)] args ;;
  query <- arg_str "query" bound ;;
  memory_search query.

Definition call_memory_read (args : kwargs) : M string :=
  bound <- bind_kwargs "memory_read" [("filename", None)] args ;;
  filename <- arg_str "filename" bound ;;
  memory_read filename.

Definition call_checkpoint_save (args : kwargs) : M string :=
  bound <- bind_kwargs "checkpoint_save"
             [("task", None); ("status", None); ("completed", Some VNull);
              ("next_steps", Some VNull); ("blockers", Some VNull)] args ;;
  task <- arg_str "task" bound ;;
  status <- arg_str "status" bound ;;
  completed <- arg_opt_list "completed" bound ;;
  next_steps <- arg_opt_list "next_steps" bound ;;
  blockers <- arg_opt_str "blockers" bound ;;
  checkpoint_save task status completed next_steps blockers.

Definition call_checkpoint_load (args : kwargs) : M string :=
  bind_kwargs "checkpoint_load" [] args ;;
  checkpoint_load.

Definition call_read_file (args : kwargs) : M string :=
  bound <- bind_kwargs "read_file" [("path", None)] args ;;
  path <- arg_str "path" bound ;;
  read_file path.

Definition call_write_file (args : kwargs) : M string :=
  bound <- bind_kwargs "write_file" [("path", None); ("content", None)] args ;;
  path <- arg_str "path" bound ;;
  content <- arg_str "content" bound ;;
  write_file path content.

Definition call_list_files (args : kwargs) : M string :=
  bound <- bind_kwargs "list_files" [("path", Some (VStr "."))] args ;;
  path <- arg_str "path" bound ;;
  list_files path.

Definition call_get_current_time (args : kwargs) : M string :=
  bind_kwargs "get_current_time" [] args ;;
  get_current_time.

Definition TOOL_FUNCTIONS : list (string * (kwargs -> M string)) :=
  [ ("memory_write", call_memory_write);
    ("memory_search", call_memory_search);
    ("memory_read", call_memory_read);
    ("checkpoint_save", call_checkpoint_save);
    ("checkpoint_load", call_checkpoint_load);
    ("read_file", call_read_file);
    ("write_file", call_write_file);
    ("list_files", call_list_files);
    ("get_current_time", call_get_current_time) ].

Definition execute_tool (name : string) (args : kwargs) : M string :=
  match assoc name TOOL_FUNCTIONS with
  | None => ret ("Unknown tool: " ++ name)
  | Some func =>
      try_except (func args)
        (fun e => ret ("Error: " ++ str_exn e))
  end.

(** [execute_tool(name, args)] as [main] calls it, with whatever
    [json.loads] returned: unpacking something that is no dictionary
    raises a [TypeError] inside the [try]. *)
Definition execute_decoded (name : string) (args : value) : M string :=
  match args with
  | VDict fields => execute_tool name fields
  | other =>
      match assoc name TOOL_FUNCTIONS with
      | None => ret ("Unknown tool: " ++ name)
      | Some _ =>
          ret ("Error: " ++ name
               ++ "() argument after ** must be a mapping, not " ++ type_name other)
      end
  end.

End Tools.

(** ** The agent loop *)

(** The trimming step of [main]:
    [if len(messages) > 21: messages = [messages[0]] + messages[-20:]]. *)
Definition keep_recent (messages : list AgentWithMemory.Message)
  : list AgentWithMemory.Message :=
  if Nat.ltb 21 (List.length messages) then
    match messages with
    | first :: _ => ([first] ++ last_n 20 messages)%list
    | [] => []   (* not reached: the list is longer than 21 *)
    end
  else messages.

(** [arg_preview = list(args.values())[0][:40] if args else ""]: only
    whether it raises matters, the preview is printed and forgotten.
    A text or a list can be sliced; a dictionary cannot (a [TypeError],
    a [KeyError] from Python 3.12 on), nor can a number, a boolean or
    [None]. *)
Definition arg_preview (args : value) : outcome unit :=
  if truthy args then
    match args with
    | VDict ((_, first) :: _) =>
        match first with
        | VStr _ | VList _ => Ret tt
        | VDict _ => Raise (mkExn TypeError "unhashable type: 'slice'")
        | other =>
            Raise (mkExn TypeError
                     ("'" ++ type_name other ++ "' object is not subscriptable"))
        end
    | VDict [] => Ret tt
    | other =>
        Raise (mkExn AttributeError
                 ("'" ++ type_name other ++ "' object has no attribute 'values'"))
    end
  else Ret tt.

Section Loop.
Import AgentWithMemory.
Context `{StrMethods} `{JsonCodec} `{CompletionService}.

(** [for tc in msg.tool_calls: ...]. *)
Fixpoint run_tool_calls (calls : list ToolCall) (s : Session)
  : option exn * Session :=
  match calls with
  | [] => (None, s)
  | tc :: rest =>
      let name := tc_name tc in
      match json_loads (tc_arguments tc) with
      | Raise e => (Some e, s)
      | Ret args =>
          match arg_preview args with
          | Raise e => (Some e, s)
          | Ret _ =>
              match execute_decoded name args (world s) with
              | (Ret result, w') =>
                  run_tool_calls rest
                    (append_message (tool_message (tc_id tc) result)
                       (with_world s w'))
              | (Raise e, w') => (Some e, with_world s w')
              end
          end
      end
  end.

(** The inner [while True]: one round per unit of fuel. *)
Fixpoint model_turns (fuel : nat) (after : bool) (s : Session)
  : status * Session :=
  match fuel with
  | O => (OutOfFuel, s)
  | S fuel' =>
      let s1 := record_invocation after s in
      match chat_completions_create (List.length (log s)) (messages s) with
      | Raise e => (Uncaught e, s1)
      | Ret msg =>
          match am_tool_calls msg with
          | Some ((_ :: _) as calls) =>
              let s2 :=
                append_message
                  (assistant_message (am_content msg) (Some calls)) s1 in
              match run_tool_calls calls s2 with
              | (Some e, s3) => (Uncaught e, s3)
              | (None, s3) => model_turns fuel' true s3
              end
          | _ =>
              (Answered,
               append_message (assistant_message (am_content msg) None) s1)
          end
      end
  end.

(** The outer [while True] over the lines typed by the user. *)
Fixpoint main_loop (fuel : nat) (lines : list string) (s : Session)
  : status * Session :=
  match lines with
  | [] => (Uncaught (mkExn EOFError "EOF when reading a line"), s)
  | line :: rest =>
      let user_input := strip line in
      if String.eqb (lower user_input) "quit" then (Exited, s)
      else if String.eqb user_input "" then main_loop fuel rest s
      else
        let s1 := append_message (user_message user_input) s in
        let s2 :=
          {| messages := keep_recent (messages s1);
             world := world s1; log := log s1 |} in
        match model_turns fuel false s2 with
        | (Answered, s3) => main_loop fuel rest s3
        | stopped => stopped
        end
  end.

Definition main (fuel : nat) (lines : list string) (w : World)
  : status * Session :=
  main_loop fuel lines
    {| messages := [system_message SYSTEM_PROMPT]; world := w; log := [] |}.

(** A request gets as far as [execute_tool] when its arguments decode and
    the preview of them can be taken. *)
Definition previewable (tc : ToolCall) : bool :=
  match json_loads (tc_arguments tc) with
  | Ret args =>
      match arg_preview args with
      | Ret _ => true
      | Raise _ => false
      end
  | Raise _ => false
  end.

End Loop.

End AgentWithBehaviors.

(* ===================================================================== *)
(** * A small runtime for concrete runs *)
(* ===================================================================== *)

Module Demo.

Definition ascii_lower (c : ascii) : ascii :=
  let n := nat_of_ascii c in
  if Nat.leb 65 n && Nat.leb n 90 then ascii_of_nat (n + 32) else c.

Fixpoint str_map (f : ascii -> ascii) (s : string) : string :=
  match s with
  | EmptyString => EmptyString
  | String c s' => String (f c) (str_map f s')
  end.

Definition is_space (c : ascii) : bool :=
  let n := nat_of_ascii c in
  Nat.eqb n 32 || (Nat.leb 9 n && Nat.leb n 13).

Fixpoint lstrip (s : string) : string :=
  match s with
  | EmptyString => EmptyString
  | String c s' => if is_space c then lstrip s' else s
  end.

Fixpoint str_rev (s : string) : string :=
  match s with
  | EmptyString => EmptyString
  | String c s' => str_rev s' ++ String c EmptyString
  end.

(** ASCII letters and ASCII blanks. *)
#[export] Instance ascii_str : StrMethods := {|
  lower := str_map ascii_lower;
  strip := fun s => str_rev (lstrip (str_rev (lstrip s)))
|}.

(** A decoder that knows the empty object only. *)
#[export] Instance tiny_json : JsonCodec := {|
  json_dumps := fun _ => "{}";
  json_loads_doc := fun text => Raise (mkExn JSONDecodeError text);
  json_loads := fun text =>
    if String.eqb text "{}" then Ret (VDict [])
    else Raise (mkExn JSONDecodeError text)
|}.

Definition noon : Clock := {|
  strftime_minute := "2025-01-01 12:00";
  strftime_second := "2025-01-01 12:00:00";
  isoformat := "2025-01-01T12:00:00.000000"
|}.

Definition later : Clock := {|
  strftime_minute := "2025-01-01 12:05";
  strftime_second := "2025-01-01 12:05:30";
  isoformat := "2025-01-01T12:05:30.000000"
|}.

(** The state an import leaves: the memory directory, and nothing in it. *)
Definition fresh_world : World := {|
  fs := [("./memory", Dir)];
  clock := noon;
  write_fault := fun _ => None
|}.

Definition noop_call (i : nat) : AgentWithMemory.ToolCall := {|
  AgentWithMemory.tc_id := "call_" ++ NilEmpty.string_of_uint (Nat.to_uint i);
  AgentWithMemory.tc_name := "noop";
  AgentWithMemory.tc_arguments := "{}"
|}.

(** The [n]-th message of a long conversation. *)
Definition numbered (n : nat) : AgentWithMemory.Message :=
  AgentWithMemory.user_message (NilEmpty.string_of_uint (Nat.to_uint n)).

(** A model that asks for [n] tools at once and then answers. *)
Definition eager_model (n : nat) : AgentWithMemory.CompletionService := {|
  AgentWithMemory.SYSTEM_PROMPT := "You are a helpful assistant named Microwave.";
  AgentWithMemory.chat_completions_create := fun k _ =>
    match k with
    | O => Ret {| AgentWithMemory.am_content := None;
                  AgentWithMemory.am_tool_calls := Some (map noop_call (seq 0 n)) |}
    | S _ => Ret {| AgentWithMemory.am_content := Some "done";
                    AgentWithMemory.am_tool_calls := None |}
    end
|}.

(** A model whose second request carries arguments that are no JSON. *)
Definition careless_model : AgentWithMemory.CompletionService := {|
  AgentWithMemory.SYSTEM_PROMPT := "You are a helpful assistant named Microwave.";
  AgentWithMemory.chat_completions_create := fun _ _ =>
    Ret {| AgentWithMemory.am_content := None;
           AgentWithMemory.am_tool_calls :=
             Some [ noop_call 0;
                    {| AgentWithMemory.tc_id := "call_1";
                       AgentWithMemory.tc_name := "memory_list";
                       AgentWithMemory.tc_arguments := "{" |} ] |}
|}.

(** A model that answers at once and never asks for a tool. *)
Definition plain_model : AgentWithMemory.CompletionService := {|
  AgentWithMemory.SYSTEM_PROMPT := "You are a helpful assistant named Microwave.";
  AgentWithMemory.chat_completions_create := fun _ _ =>
    Ret {| AgentWithMemory.am_content := Some "Noted.";
           AgentWithMemory.am_tool_calls := None |}
|}.

(** A model that asks for one tool, with the arguments given as JSON
    text, and then answers. *)
Definition one_call_model (name arguments : string)
  : AgentWithMemory.CompletionService := {|
  AgentWithMemory.SYSTEM_PROMPT := "You are a helpful assistant named Microwave.";
  AgentWithMemory.chat_completions_create := fun k _ =>
    match k with
    | O => Ret {| AgentWithMemory.am_content := None;
                  AgentWithMemory.am_tool_calls :=
                    Some [ {| AgentWithMemory.tc_id := "call_0";
                              AgentWithMemory.tc_name := name;
                              AgentWithMemory.tc_arguments := arguments |} ] |}
    | S _ => Ret {| AgentWithMemory.am_content := Some "done";
                    AgentWithMemory.am_tool_calls := None |}
    end
|}.

(** The JSON texts of a dictionary whose first value is a number, and of
    one whose first value is a text. *)
Definition dq : string := String (Ascii.ascii_of_nat 34) EmptyString.

Definition json_count : string := "{" ++ dq ++ "n" ++ dq ++ ": 5}".

Definition json_path : string :=
  "{" ++ dq ++ "path" ++ dq ++ ": " ++ dq ++ "." ++ dq ++ "}".

(** A decoder that knows these two texts and the empty object. *)
Definition small_json : JsonCodec := {|
  json_dumps := fun _ => "{}";
  json_loads_doc := fun text => Raise (mkExn JSONDecodeError text);
  json_loads := fun text =>
    if String.eqb text "{}" then Ret (VDict [])
    else if String.eqb text json_count then Ret (VDict [("n", VNum 5)])
    else if String.eqb text json_path then Ret (VDict [("path", VStr ".")])
    else Raise (mkExn JSONDecodeError text)
|}.

(** A stand-in for the embedding service: a vector has one coordinate,
    and the score of a stored vector is that coordinate. The service
    refuses the empty text. Scores print with two decimals. *)
Definition two_decimals (q : Q) : string :=
  let hundredths := Z.to_nat (Qfloor (q * 100 + (1 # 2))%Q) in
  let digits n := NilEmpty.string_of_uint (Nat.to_uint n) in
  digits (hundredths / 100) ++ "."
  ++ (if Nat.ltb (hundredths mod 100) 10 then "0" else "")
  ++ digits (hundredths mod 100).

Definition toy_embeddings : MemoryWithEmbeddings.EmbeddingService := {|
  MemoryWithEmbeddings.get_embedding := fun text =>
    if String.eqb text "" then Raise (mkExn APIError "input must not be empty")
    else Ret [1%Q];
  MemoryWithEmbeddings.cosine_similarity := fun _ stored =>
    match stored with
    | q :: _ => q
    | [] => 0%Q
    end;
  MemoryWithEmbeddings.format_2f := two_decimals
|}.

Definition indexed (filename content : string) (coordinate : Q) : EmbeddingRecord := {|
  e_id := filename ++ "_2024-12-31 09:00";
  e_filename := filename;
  e_content := content;
  e_timestamp := "2024-12-31 09:00";
  e_embedding := [coordinate]
|}.

(** Five records in insertion order: two tie at one half, one sits
    exactly on the threshold. *)
Definition demo_entries : list EmbeddingRecord :=
  [ indexed "misc" "the weather was fine" (1 # 10);
    indexed "work" "Joe builds AI agents" (1 # 2);
    indexed "edge" "colors in general" MemoryWithEmbeddings.THRESHOLD;
    indexed "prefs" "favorite color is blue" (9 # 10);
    indexed "food" "likes ramen" (1 # 2) ].

Definition demo_files : list (string * node) :=
  [ ("./memory", Dir);
    ("./memory/prefs.md",
     File (nl ++ "## [2024-12-31 09:00]" ++ nl ++ "Favorite color is Blue" ++ nl));
    ("./memory/todo.md", File "buy milk");
    ("./memory/draft.txt", File "blue ink");
    ("./memory/locked.md", Broken (mkExn OSError "Permission denied"));
    ("./memory/embeddings.json", JsonFile (EmbeddingsDoc demo_entries)) ].

Definition stocked_world : World := {|
  fs := demo_files;
  clock := noon;
  write_fault := fun _ => None
|}.

(** A disk from which the memory directory has been removed. *)
Definition bare_world : World := {|
  fs := [];
  clock := noon;
  write_fault := fun _ => None
|}.

(** The same disk when every write to an open file is refused. *)
Definition refusing_world : World := {|
  fs := demo_files;
  clock := noon;
  write_fault := fun _ => Some (mkExn OSError "[Errno 28] No space left on device")
|}.


End Demo.

(* ===================================================================== *)
(** * Properties *)
(* ===================================================================== *)

Local Open Scope list_scope.

Section ListFacts.
Context {A : Type}.

Lemma last_n_length (n : nat) (l : list A) :
  List.length (last_n n l) = Nat.min (List.length l) n.
Proof.
  unfold last_n. rewrite List.length_skipn. lia.
Qed.

Lemma last_n_suffix (n : nat) (l : list A) :
  firstn (List.length l - n) l ++ last_n n l = l.
Proof.
  unfold last_n. apply firstn_skipn.
Qed.

Lemma last_n_cons_long (n : nat) (x : A) (l : list A) :
  n <= List.length l -> last_n n (x :: l) = last_n n l.
Proof.
  intros Hn. unfold last_n. cbn [List.length].
  replace (S (List.length l) - n) with (S (List.length l - n)) by lia.
  reflexivity.
Qed.
End ListFacts.

Module TrimFacts.
Import AgentWithMemory.

Lemma trim_short (messages : list Message) :
  List.length messages <= MAX_MESSAGES + 1 -> trim_messages messages = messages.
Proof.
  intros H. unfold trim_messages.
  destruct (Nat.leb_spec (List.length messages) (MAX_MESSAGES + 1)); [reflexivity | lia].
Qed.

Lemma trim_long (system_msg : Message) (rest : list Message) :
  MAX_MESSAGES < List.length rest ->
  trim_messages (system_msg :: rest) = system_msg :: last_n MAX_MESSAGES rest.
Proof.
  intros H. unfold trim_messages. cbn [List.length].
  destruct (Nat.leb_spec (S (List.length rest)) (MAX_MESSAGES + 1)); [lia |].
  cbn [app]. rewrite last_n_cons_long by lia. reflexivity.
Qed.

(** The shape of the result in both branches at once. *)
Lemma trim_cons (system_msg : Message) (rest : list Message) :
  trim_messages (system_msg :: rest) = system_msg :: last_n MAX_MESSAGES rest.
Proof.
  destruct (Nat.le_gt_cases (List.length rest) MAX_MESSAGES) as [Hle | Hgt].
  - rewrite trim_short by (cbn [List.length]; lia).
    unfold last_n. replace (List.length rest - MAX_MESSAGES) with 0 by lia.
    reflexivity.
  - apply trim_long. exact Hgt.
Qed.

(** C1. A history [system_msg :: rest] of length [L] is trimmed to the
    same system message followed by the last [min (L-1) 20] messages of
    the input, in their order; the result has length [min L 21]. *)
Theorem trim_messages_window (system_msg : Message) (rest : list Message) :
  let messages := system_msg :: rest in
  let L := List.length messages in
  exists dropped kept,
    rest = dropped ++ kept /\
    List.length kept = Nat.min (L - 1) MAX_MESSAGES /\
    trim_messages messages = system_msg :: kept /\
    List.length (trim_messages messages) = Nat.min L (MAX_MESSAGES + 1) /\
    MAX_MESSAGES = 20.
Proof.
  cbn zeta.
  exists (firstn (List.length rest - MAX_MESSAGES) rest), (last_n MAX_MESSAGES rest).
  rewrite trim_cons. cbn [List.length].
  rewrite last_n_length, last_n_suffix.
  repeat split; try reflexivity; unfold MAX_MESSAGES; lia.
Qed.

End TrimFacts.

(** ** The monad *)

Section MonadFacts.
Context {A : Type}.

Lemma try_except_total (body : M A) (handler : exn -> M A) (w : World) :
  (forall e w1, exists a w2, handler e w1 = (Ret a, w2)) ->
  exists a w', try_except body handler w = (Ret a, w').
Proof.
  intros Hh. unfold try_except.
  destruct (body w) as [[a | e] w1].
  - exists a, w1. reflexivity.
  - apply Hh.
Qed.

End MonadFacts.

(** ** The dispatcher boundary *)

Module DispatcherFacts.
Section WithRuntime.
Context `{StrMethods} `{JsonCodec}.

Lemma memory_execute_tool_returns (tool_name : string) (arguments : kwargs) (w : World) :
  exists text w', AgentWithMemory.execute_tool tool_name arguments w = (Ret text, w').
Proof.
  unfold AgentWithMemory.execute_tool.
  destruct (assoc tool_name AgentWithMemory.TOOL_FUNCTIONS) as [func |].
  - apply try_except_total. intros e w1. eexists _, _. reflexivity.
  - eexists _, _. reflexivity.
Qed.

Lemma behaviors_execute_tool_returns (name : string) (args : kwargs) (w : World) :
  exists text w', AgentWithBehaviors.execute_tool name args w = (Ret text, w').
Proof.
  unfold AgentWithBehaviors.execute_tool.
  destruct (assoc name AgentWithBehaviors.TOOL_FUNCTIONS) as [func |].
  - apply try_except_total. intros e w1. eexists _, _. reflexivity.
  - eexists _, _. reflexivity.
Qed.

(** C5, as the code has it. Both dispatchers return a text for every tool
    name and every argument dictionary: an exception raised by the
    capability, keyword binding included, becomes a text built from its
    message, in the world the capability left. An unknown name gives
    ["Error: Unknown tool '<name>'"] in [agent_with_memory.py] and
    ["Unknown tool: <name>"] in [agent_with_behaviors.py]. *)
Theorem execute_tool_never_raises (name : string) (args : kwargs) (w : World) :
  (exists text w', AgentWithMemory.execute_tool name args w = (Ret text, w')) /\
  (exists text w', AgentWithBehaviors.execute_tool name args w = (Ret text, w')) /\
  AgentWithMemory.execute_tool name args w =
    match assoc name AgentWithMemory.TOOL_FUNCTIONS with
    | None => (Ret ("Error: Unknown tool '" ++ name ++ "'")%string, w)
    | Some func =>
        match func args w with
        | (Ret text, w') => (Ret text, w')
        | (Raise e, w') =>
            (Ret ("Error executing " ++ name ++ ": " ++ str_exn e)%string, w')
        end
    end /\
  AgentWithBehaviors.execute_tool name args w =
    match assoc name AgentWithBehaviors.TOOL_FUNCTIONS with
    | None => (Ret ("Unknown tool: " ++ name)%string, w)
    | Some func =>
        match func args w with
        | (Ret text, w') => (Ret text, w')
        | (Raise e, w') => (Ret ("Error: " ++ str_exn e)%string, w')
        end
    end.
Proof.
  split; [apply memory_execute_tool_returns |].
  split; [apply behaviors_execute_tool_returns |].
  split.
  - unfold AgentWithMemory.execute_tool.
    destruct (assoc name AgentWithMemory.TOOL_FUNCTIONS); reflexivity.
  - unfold AgentWithBehaviors.execute_tool.
    destruct (assoc name AgentWithBehaviors.TOOL_FUNCTIONS); reflexivity.
Qed.

End WithRuntime.

Import Demo.

(** C5, as stated, fails on [agent_with_behaviors.py]: the text for an
    unknown tool is not ["Error: Unknown tool '<name>'"]. *)
Lemma behaviors_unknown_tool_text :
  let stated := (Ret "Error: Unknown tool 'unknown_tool'", Demo.fresh_world) in
  AgentWithMemory.execute_tool "unknown_tool" [] Demo.fresh_world = stated /\
  AgentWithBehaviors.execute_tool "unknown_tool" [] Demo.fresh_world <> stated /\
  AgentWithBehaviors.execute_tool "unknown_tool" [] Demo.fresh_world
    = (Ret "Unknown tool: unknown_tool", Demo.fresh_world).
Proof.
  cbn zeta. split; [reflexivity |]. split; [| reflexivity].
  vm_compute. discriminate.
Qed.

End DispatcherFacts.

(** ** The agent loop *)

Module LoopFacts.
Import AgentWithMemory.


Section WithRuntime.
Context `{StrMethods} `{JsonCodec} `{CompletionService}.


Lemma run_tool_calls_log (calls : list ToolCall) (s : Session) :
  log (snd (run_tool_calls calls s)) = log s.
Proof.
  revert s. induction calls as [| call rest IH]; intros s; cbn [run_tool_calls].
  - reflexivity.
  - destruct (json_loads (tc_arguments call)) as [[ | | | | | arguments] | e];
      try reflexivity.
    destruct (execute_tool (tc_name call) arguments (world s)) as [[result | e] w'].
    + rewrite IH. reflexivity.
    + reflexivity.
Qed.

Lemma run_tool_calls_messages (calls : list ToolCall) (s : Session) :
  exists more, messages (snd (run_tool_calls calls s)) = messages s ++ more.
Proof.
  revert s. induction calls as [| call rest IH]; intros s; cbn [run_tool_calls].
  - exists []. symmetry. apply app_nil_r.
  - destruct (json_loads (tc_arguments call)) as [[ | | | | | arguments] | e];
      try (exists []; symmetry; apply app_nil_r).
    destruct (execute_tool (tc_name call) arguments (world s)) as [[result | e] w'].
    + destruct (IH (append_message (tool_message (tc_id call) result) (with_world s w')))
        as [more Hmore].
      rewrite Hmore. cbn [append_message with_world messages].
      rewrite <- app_assoc. eexists. reflexivity.
    + exists []. symmetry. apply app_nil_r.
Qed.





(** *** The trim policy inside a run *)


Lemma model_turns_messages_extend (fuel : nat) (after : bool) (s : Session) :
  exists more, messages (snd (model_turns fuel after s)) = messages s ++ more.
Proof.
  revert after s. induction fuel as [| fuel IH]; intros after s; cbn [model_turns].
  - exists []. symmetry. apply app_nil_r.
  - destruct (chat_completions_create _ _) as [reply | e].
    + destruct (am_tool_calls reply) as [[| call calls] |].
      * eexists. reflexivity.
      * match goal with
        | |- context [run_tool_calls ?cs ?s2] =>
            destruct (run_tool_calls_messages cs s2) as [more Hmore];
            destruct (run_tool_calls cs s2) as [[e |] s3]
        end; cbn [snd] in Hmore.
        -- cbn [snd]. rewrite Hmore.
           cbn [append_message record_invocation messages].
           rewrite <- app_assoc. eexists. reflexivity.
        -- destruct (IH true s3) as [more' Hmore'].
           rewrite Hmore', Hmore.
           cbn [append_message record_invocation messages].
           rewrite <- !app_assoc. eexists. reflexivity.
      * eexists. reflexivity.
    + exists []. symmetry. apply app_nil_r.
Qed.







End WithRuntime.

Import Demo.



End LoopFacts.

(** ** Strings *)

Section StringFacts.
Local Open Scope string_scope.

Lemma endswith_refl (s : string) : endswith s s = true.
Proof.
  destruct s; cbn [endswith]; rewrite String.eqb_refl; reflexivity.
Qed.

Lemma endswith_app (p s suf : string) :
  endswith s suf = true -> endswith (p ++ s) suf = true.
Proof.
  intros Hs. induction p as [| c p IH]; [exact Hs |].
  cbn [append endswith]. rewrite IH. apply orb_true_r.
Qed.

Lemma startswith_spec (s pre : string) :
  startswith s pre = true <-> exists post, s = pre ++ post.
Proof.
  revert s. induction pre as [| a pre IH]; intros s; cbn [startswith].
  - split; [intros _; exists s; reflexivity | reflexivity].
  - destruct s as [| b s].
    + split; [discriminate | intros [post Hpost]; discriminate].
    + rewrite andb_true_iff, IH. split.
      * intros [Hab [post ->]]. apply Ascii.eqb_eq in Hab. subst.
        exists post. reflexivity.
      * intros [post [= -> ->]]. split; [apply Ascii.eqb_refl |].
        exists post. reflexivity.
Qed.

(** [sub in s] holds exactly when [sub] occurs somewhere in [s]. *)
Lemma contains_spec (sub s : string) :
  contains sub s = true <-> exists before after, s = before ++ sub ++ after.
Proof.
  induction s as [| c s IH]; cbn [contains].
  - rewrite orb_false_r, startswith_spec. split.
    + intros [post Hpost]. exists "", post. exact Hpost.
    + intros [[| b before] [after Heq]]; [exists after; exact Heq | discriminate].
  - rewrite orb_true_iff, startswith_spec, IH. split.
    + intros [[post Hpost] | (before & after & ->)].
      * exists "", post. exact Hpost.
      * exists (String c before), after. reflexivity.
    + intros [[| b before] [after Heq]].
      * left. exists after. exact Heq.
      * right. injection Heq as -> ->. exists before, after. reflexivity.
Qed.

Lemma md_path_not_json (d name : string) :
  endswith (os_path_join d (name ++ ".md")) ".md" = true.
Proof.
  assert (Hname : endswith (name ++ ".md") ".md" = true)
    by (apply endswith_app, endswith_refl).
  unfold os_path_join.
  destruct (name ++ ".md") as [| c rest] eqn:Heq.
  - destruct name; discriminate.
  - destruct (Ascii.eqb c slash); [exact Hname |].
    apply endswith_app, endswith_app. exact Hname.
Qed.

End StringFacts.

(** ** Files *)

Section FileFacts.
Context `{JsonCodec}.

Lemma read_text_world (path : string) (w : World) :
  snd (read_text path w) = w.
Proof.
  unfold read_text.
  destruct (assoc path (fs w)) as [[text | doc | | e] |]; reflexivity.
Qed.


Lemma assoc_fs_set_same (path : string) (n : node) (l : list (string * node)) :
  assoc path (fs_set path n l) = Some n.
Proof.
  induction l as [| [p m] l IH]; cbn [fs_set assoc].
  - rewrite String.eqb_refl. reflexivity.
  - destruct (String.eqb p path) eqn:Hp; cbn [assoc]; rewrite Hp; auto.
Qed.

Lemma assoc_fs_set_other (path other : string) (n : node) (l : list (string * node)) :
  other <> path ->
  assoc other (fs_set path n l) = assoc other l.
Proof.
  intros Hneq. induction l as [| [p m] l IH]; cbn [fs_set assoc].
  - destruct (String.eqb_spec path other); [congruence | reflexivity].
  - destruct (String.eqb_spec p path) as [-> | Hp]; cbn [assoc].
    + destruct (String.eqb_spec path other); [congruence | reflexivity].
    + rewrite IH. reflexivity.
Qed.

End FileFacts.

(** ** Reading and searching notes *)

Module NoteFacts.
Section WithRuntime.
Context `{StrMethods} `{JsonCodec}.
Local Open Scope string_scope.


Lemma search_notes_hits (query_lower : string) (filenames : list string)
  (results : list string) (w : World) :
  AgentWithMemory.search_notes query_lower filenames results w
  = (Ret (results ++ map AgentWithMemory.show_hit (AgentWithMemory.hits_in query_lower w filenames))%list, w).
Proof.
  revert results. induction filenames as [| filename rest IH]; intros results.
  - cbn. rewrite app_nil_r. reflexivity.
  - cbn [AgentWithMemory.search_notes AgentWithMemory.hits_in flat_map].
    fold (AgentWithMemory.hits_in query_lower w rest).
    destruct (endswith filename ".md"); [| apply IH].
    unfold bind at 1. unfold try_except, bind at 1.
    pose proof (read_text_world (os_path_join AgentWithMemory.MEMORY_DIR filename) w) as Hw.
    destruct (read_text (os_path_join AgentWithMemory.MEMORY_DIR filename) w)
      as [[content | e] w1]; cbn [fst snd] in *; subst w1.
    + destruct (contains query_lower (lower content)); unfold ret at 1.
      * rewrite IH. cbn [map app AgentWithMemory.show_hit fst snd].
        rewrite <- app_assoc. reflexivity.
      * apply IH.
    + unfold ret at 1. apply IH.
Qed.

(** Without the memory directory the guard of [memory_search] answers. *)
Lemma exact_search_without_directory (query : string) (w : World) :
  assoc AgentWithMemory.MEMORY_DIR (fs w) = None ->
  AgentWithMemory.memory_search query w
  = (Ret "No memories found. Memory directory is empty.", w).
Proof.
  intros Hnone. unfold AgentWithMemory.memory_search.
  unfold bind, os_path_exists. rewrite Hnone. reflexivity.
Qed.

(** C4, as the code has it. With the memory directory in place,
    [memory_search] of [agent_with_memory.py] returns the notes whose
    lowercased text has the lowercased query as a substring, and no
    others, each with its entire text; when there is none, the result is
    the text ["No memories found matching '<query>'"]. With the memory
    directory missing, the result is the text
    ["No memories found. Memory directory is empty."]. *)
Theorem exact_search_matches (query : string) (w : World) :
  (assoc AgentWithMemory.MEMORY_DIR (fs w) = Some Dir ->
   exists hits : list (string * string),
     (forall filename content,
        In (filename, content) hits <->
        In filename (children AgentWithMemory.MEMORY_DIR (fs w)) /\
        endswith filename ".md" = true /\
        read_text (os_path_join AgentWithMemory.MEMORY_DIR filename) w
          = (Ret content, w) /\
        exists before after, lower content = before ++ lower query ++ after) /\
     AgentWithMemory.memory_search query w
     = (Ret match hits with
            | [] => "No memories found matching '" ++ query ++ "'"
            | _ :: _ =>
                join (nl ++ nl)
                  (map (fun hit => "=== " ++ fst hit ++ " ===" ++ nl ++ snd hit) hits)
            end, w)) /\
  (assoc AgentWithMemory.MEMORY_DIR (fs w) = None ->
   AgentWithMemory.memory_search query w
   = (Ret "No memories found. Memory directory is empty.", w)).
Proof.
  split; [| apply exact_search_without_directory].
  intros Hdir.
  exists (AgentWithMemory.hits_in (lower query) w
            (children AgentWithMemory.MEMORY_DIR (fs w))).
  split.
  - intros filename content. unfold AgentWithMemory.hits_in.
    rewrite in_flat_map. split.
    + intros (name & Hin & Hhit).
      destruct (endswith name ".md") eqn:Hmd; [| contradiction].
      pose proof (read_text_world (os_path_join AgentWithMemory.MEMORY_DIR name) w) as Hw.
      destruct (read_text (os_path_join AgentWithMemory.MEMORY_DIR name) w)
        as [[text | e] w1] eqn:Hread; cbn [fst snd] in *; subst w1;
        [| contradiction].
      destruct (contains (lower query) (lower text)) eqn:Hsub; [| contradiction].
      destruct Hhit as [[= <- <-] | []].
      rewrite Hread. repeat split; try assumption.
      apply contains_spec. exact Hsub.
    + intros (Hin & Hmd & Hread & Hsub).
      exists filename. split; [exact Hin |].
      rewrite Hmd, Hread. cbn [fst].
      apply contains_spec in Hsub. rewrite Hsub. left. reflexivity.
  - unfold AgentWithMemory.memory_search.
    unfold bind at 1, os_path_exists at 1. rewrite Hdir. cbn [negb].
    unfold bind at 1, os_listdir at 1. rewrite Hdir.
    unfold bind at 1. rewrite search_notes_hits. cbn [app].
    destruct (AgentWithMemory.hits_in (lower query) w
                (children AgentWithMemory.MEMORY_DIR (fs w)));
      reflexivity.
Qed.

End WithRuntime.

Import Demo.
Local Open Scope string_scope.


(** C4, as stated, fails where the memory directory is missing: nothing
    matches, and the result is not the text that names the query. *)
Lemma search_without_directory_text :
  AgentWithMemory.memory_search "color" bare_world
    <> (Ret "No memories found matching 'color'", bare_world) /\
  AgentWithMemory.memory_search "color" bare_world
    = (Ret "No memories found. Memory directory is empty.", bare_world).
Proof.
  split; [| reflexivity]. vm_compute. discriminate.
Qed.

(** Where C4 applies: the stocked directory, a query in capitals. The
    match is found in [prefs.md]; the text file, the unreadable note and
    the embeddings log are passed over. *)
Lemma exact_search_matches_witness :
  assoc AgentWithMemory.MEMORY_DIR (fs stocked_world) = Some Dir /\
  (exists hits,
     In ("prefs.md",
         nl ++ "## [2024-12-31 09:00]" ++ nl ++ "Favorite color is Blue" ++ nl)
        hits /\
     ~ In ("draft.txt", "blue ink") hits /\
     AgentWithMemory.memory_search "BLUE" stocked_world
     = (Ret match hits with
            | [] => "No memories found matching 'BLUE'"
            | _ :: _ =>
                join (nl ++ nl)
                  (map (fun hit => "=== " ++ fst hit ++ " ===" ++ nl ++ snd hit) hits)
            end, stocked_world)) /\
  assoc AgentWithMemory.MEMORY_DIR (fs bare_world) = None /\
  AgentWithMemory.memory_search "BLUE" bare_world
  = (Ret "No memories found. Memory directory is empty.", bare_world).
Proof.
  split; [reflexivity |].
  destruct (@exact_search_matches ascii_str tiny_json "BLUE" stocked_world)
    as [Hthere _].
  destruct (Hthere eq_refl) as (hits & Hiff & Hresult).
  destruct (@exact_search_matches ascii_str tiny_json "BLUE" bare_world)
    as [_ Hmissing].
  split; [| split; [reflexivity | apply Hmissing; reflexivity]].
  exists hits. split; [| split; [| exact Hresult]].
  - apply Hiff. split; [vm_compute; auto |].
    split; [reflexivity |]. split; [reflexivity |].
    exists (nl ++ "## [2024-12-31 09:00]" ++ nl ++ "favorite color is "), nl.
    reflexivity.
  - intros Hin. apply Hiff in Hin as (_ & Hmd & _). discriminate.
Defined.

End NoteFacts.

(** ** Ranking by similarity *)

Module RankingFacts.
Import MemoryWithEmbeddings.

Lemma insert_desc_perm (item : Scored) (l : list Scored) :
  Permutation (insert_desc item l) (item :: l).
Proof.
  induction l as [| other rest IH]; cbn [insert_desc].
  - reflexivity.
  - destruct (Qle_bool (similarity other) (similarity item)).
    + reflexivity.
    + rewrite IH. apply perm_swap.
Qed.


Lemma insert_desc_sorted (item : Scored) (l : list Scored) :
  StronglySorted desc l -> StronglySorted desc (insert_desc item l).
Proof.
  induction 1 as [| other rest Hrest IH Hall]; cbn [insert_desc].
  - repeat constructor.
  - destruct (Qle_bool (similarity other) (similarity item)) eqn:Hle.
    + apply Qle_bool_iff in Hle.
      constructor; [constructor; assumption |].
      constructor; [exact Hle |].
      eapply Forall_impl; [| exact Hall].
      intros x Hx. unfold desc in *. eapply Qle_trans; eassumption.
    + constructor; [exact IH |].
      eapply Permutation_Forall; [symmetry; apply insert_desc_perm |].
      constructor; [| exact Hall].
      unfold desc. apply Qlt_le_weak, Qnot_le_lt.
      intros Hcontra. apply Qle_bool_iff in Hcontra. congruence.
Qed.

Lemma sort_desc_sorted (l : list Scored) : StronglySorted desc (sort_desc l).
Proof.
  induction l as [| item l IH]; cbn [sort_desc fold_right].
  - constructor.
  - apply insert_desc_sorted. exact IH.
Qed.

(** Insertion never moves an item past one of equal similarity. *)
Lemma insert_desc_tied (q : Q) (item : Scored) (l : list Scored) :
  tied q (insert_desc item l) = tied q (item :: l).
Proof.
  induction l as [| other rest IH]; cbn [insert_desc].
  - reflexivity.
  - destruct (Qle_bool (similarity other) (similarity item)) eqn:Hle;
      [reflexivity |].
    unfold tied in *. cbn [filter] in *. rewrite IH.
    destruct (Qeq_bool (similarity item) q) eqn:Hitem;
      destruct (Qeq_bool (similarity other) q) eqn:Hother; try reflexivity.
    exfalso.
    apply Qeq_bool_iff in Hitem, Hother.
    assert (Hcontra : Qle_bool (similarity other) (similarity item) = true).
    { apply Qle_bool_iff. rewrite Hitem, Hother. apply Qle_refl. }
    congruence.
Qed.

Lemma sort_desc_stable (q : Q) (l : list Scored) :
  tied q (sort_desc l) = tied q l.
Proof.
  induction l as [| item l IH]; cbn [sort_desc fold_right].
  - reflexivity.
  - fold (sort_desc l). rewrite insert_desc_tied.
    unfold tied in *. cbn [filter]. rewrite IH. reflexivity.
Qed.



Lemma above_threshold_iff (item : Scored) :
  above_threshold item = true <-> (THRESHOLD < similarity item)%Q.
Proof.
  unfold above_threshold. rewrite negb_true_iff. split.
  - intros Hle. apply Qnot_le_lt. intros Hcontra.
    apply Qle_bool_iff in Hcontra. congruence.
  - intros Hlt. destruct (Qle_bool (similarity item) THRESHOLD) eqn:Hle;
      [| reflexivity].
    apply Qle_bool_iff in Hle. exfalso. eapply Qlt_not_le; eassumption.
Qed.

Lemma top_results_above (top_k : Z) (scored : list Scored) :
  Forall (fun item => (THRESHOLD < similarity item)%Q) (top_results top_k scored).
Proof.
  apply Forall_forall. intros item Hin.
  apply filter_In in Hin as [_ Habove].
  apply above_threshold_iff. exact Habove.
Qed.

(** C9. The threshold test is strict: every item [memory_search] keeps
    has a similarity strictly above 0.3, and an item whose similarity is
    exactly the threshold is never kept. *)
Theorem threshold_is_strict (top_k : Z) (scored : list Scored) :
  Forall (fun item => (THRESHOLD < similarity item)%Q) (top_results top_k scored) /\
  (forall item,
     (similarity item == THRESHOLD)%Q -> ~ In item (top_results top_k scored)).
Proof.
  split; [apply top_results_above |].
  intros item Heq Hin.
  pose proof (top_results_above top_k scored) as Hall.
  rewrite Forall_forall in Hall. specialize (Hall item Hin).
  rewrite Heq in Hall. exact (Qlt_irrefl _ Hall).
Qed.

Section WithRuntime.
Context `{StrMethods} `{JsonCodec} `{EmbeddingService}.
Local Open Scope string_scope.


End WithRuntime.

Import Demo.
Local Open Scope string_scope.

(** Where C9 bites: the record that sits exactly on the threshold is
    ranked fourth of five and is not kept, even when four are asked for. *)
Lemma threshold_is_strict_witness :
  let scored := sort_desc (map (@score toy_embeddings [1%Q]) demo_entries) in
  map s_filename scored = ["prefs"; "work"; "food"; "edge"; "misc"] /\
  ~ In (@score toy_embeddings [1%Q] (indexed "edge" "colors in general" THRESHOLD))
       (top_results 4 scored) /\
  map s_filename (top_results 4 scored) = ["prefs"; "work"; "food"].
Proof.
  intros scored.
  destruct (threshold_is_strict 4 scored) as [_ Hexact].
  split; [reflexivity |]. split; [| reflexivity].
  apply Hexact. reflexivity.
Defined.


End RankingFacts.

(** ** Worlds and writes *)

Section WriteFacts.
Context `{JsonCodec}.



Lemma same_except_set (path : string) (n : node) (w : World) :
  same_except path w (with_fs w (fs_set path n (fs w))).
Proof.
  repeat split. intros other Hneq. apply assoc_fs_set_other. exact Hneq.
Qed.




Lemma f_write_done (path data : string) (w w' : World) :
  f_write path data w = (Ret tt, w') ->
  same_except path w w' /\
  exists text, assoc path (fs w') = Some (File (text ++ data)%string).
Proof.
  unfold f_write. destruct (write_fault w path); [discriminate |].
  destruct (assoc path (fs w)) as [[text | doc | | e'] |]; try discriminate;
    intros [= <-]; (split; [apply same_except_set |]);
    eexists; cbn [with_fs fs]; apply assoc_fs_set_same.
Qed.

Lemma json_dump_cases (doc : json_doc) (path : string) (w : World) :
  match write_fault w path with
  | Some e => json_dump doc path w = (Raise e, w)
  | None =>
      json_dump doc path w
      = (Ret tt, with_fs w (fs_set path (JsonFile doc) (fs w)))
  end.
Proof.
  unfold json_dump. destruct (write_fault w path); reflexivity.
Qed.

End WriteFacts.

(** ** The embedding-backed write *)

Module IndexFacts.
Import MemoryWithEmbeddings.

Section WithRuntime.
Context `{StrMethods} `{JsonCodec} `{EmbeddingService}.
Local Open Scope string_scope.

Lemma load_embeddings_reads (w : World) :
  exists o, load_embeddings w = (o, w).
Proof.
  unfold load_embeddings, bind, os_path_exists.
  destruct (assoc EMBEDDINGS_FILE (fs w)) as [n |] eqn:Hfile.
  - unfold read_json. rewrite Hfile.
    destruct n as [text | doc | | e]; eexists; reflexivity.
  - eexists. reflexivity.
Qed.



Lemma note_path_is_not_the_log (filename : string) :
  EMBEDDINGS_FILE <> os_path_join MEMORY_DIR (filename ++ ".md").
Proof.
  intros Heq. pose proof (md_path_not_json MEMORY_DIR filename) as Hmd.
  rewrite <- Heq in Hmd. vm_compute in Hmd. discriminate.
Qed.


End WithRuntime.

Import Demo.



End IndexFacts.

(** ** The checkpoint slot *)

Module CheckpointFacts.
Import AgentWithBehaviors.

Section WithRuntime.
Context `{JsonCodec}.
Local Open Scope string_scope.




End WithRuntime.

Import Demo.


End CheckpointFacts.

(** ** Concrete runs *)

Module Runs.
Import Demo.
Local Open Scope string_scope.

Example trim_25 :
  let history :=
    AgentWithMemory.system_message "prompt" :: map numbered (seq 1 24) in
  AgentWithMemory.trim_messages history
  = AgentWithMemory.system_message "prompt" :: map numbered (seq 5 20).
Proof. reflexivity. Qed.

Example trim_21 :
  let history :=
    AgentWithMemory.system_message "prompt" :: map numbered (seq 1 20) in
  AgentWithMemory.trim_messages history = history.
Proof. reflexivity. Qed.

Example one_turn_with_two_tools :
  let run := @AgentWithMemory.main _ _ (eager_model 2) 5 ["  hello "; ""; "QUIT"]
               fresh_world in
  fst run = AgentWithMemory.Exited /\
  map (fun m => (AgentWithMemory.role m, AgentWithMemory.tool_call_id m))
    (AgentWithMemory.messages (snd run))
  = [ (AgentWithMemory.system, None); (AgentWithMemory.user, None);
      (AgentWithMemory.assistant, None);
      (AgentWithMemory.tool, Some "call_0"); (AgentWithMemory.tool, Some "call_1");
      (AgentWithMemory.assistant, None) ].
Proof. vm_compute. split; reflexivity. Qed.

(** Arguments that do not decode end the session: [json.loads] is
    outside any [try]. The first request of the batch has been answered. *)
Example undecodable_arguments_end_the_session :
  let run := @AgentWithMemory.main _ _ careless_model 5 ["hello"] fresh_world in
  fst run = AgentWithMemory.Uncaught (mkExn JSONDecodeError "{") /\
  map AgentWithMemory.role (AgentWithMemory.messages (snd run))
  = [ AgentWithMemory.system; AgentWithMemory.user; AgentWithMemory.assistant;
      AgentWithMemory.tool ].
Proof. vm_compute. split; reflexivity. Qed.

Example search_finds_whole_note :
  fst (AgentWithMemory.memory_search "BLUE" stocked_world)
  = Ret ("=== prefs.md ===" ++ nl ++ nl ++ "## [2024-12-31 09:00]" ++ nl
         ++ "Favorite color is Blue" ++ nl).
Proof. reflexivity. Qed.

Example search_finds_nothing :
  fst (AgentWithMemory.memory_search "color" fresh_world)
  = Ret "No memories found matching 'color'".
Proof. reflexivity. Qed.

Example list_shows_notes :
  fst (AgentWithMemory.memory_list stocked_world)
  = Ret ("Memory files:" ++ nl ++ "- prefs.md" ++ nl ++ "- todo.md" ++ nl
         ++ "- locked.md").
Proof. reflexivity. Qed.

Example write_then_read :
  let w1 := snd (AgentWithMemory.memory_write "prefs" "favorite color is blue" true
                   fresh_world) in
  fst (AgentWithMemory.memory_read "prefs" w1)
  = Ret (nl ++ "## [2025-01-01 12:00]" ++ nl ++ "favorite color is blue" ++ nl).
Proof. reflexivity. Qed.

Example missing_argument_is_text :
  fst (AgentWithMemory.execute_tool "memory_read" [] fresh_world)
  = Ret "Error executing memory_read: memory_read() missing 1 required positional argument: 'filename'".
Proof. reflexivity. Qed.

Example unreadable_note_is_text :
  fst (AgentWithBehaviors.execute_tool "memory_search" [("query", VStr "milk")]
         stocked_world)
  = Ret "Error: Permission denied".
Proof. reflexivity. Qed.

Example semantic_search_default :
  fst (@MemoryWithEmbeddings.memory_search _ toy_embeddings "color"
         MemoryWithEmbeddings.DEFAULT_TOP_K stocked_world)
  = Ret ("Found relevant memories:" ++ nl ++ nl
         ++ "[0.90] (prefs, 2024-12-31 09:00)" ++ nl ++ "favorite color is blue"
         ++ nl ++ nl ++ "---" ++ nl ++ nl
         ++ "[0.50] (work, 2024-12-31 09:00)" ++ nl ++ "Joe builds AI agents"
         ++ nl ++ nl ++ "---" ++ nl ++ nl
         ++ "[0.50] (food, 2024-12-31 09:00)" ++ nl ++ "likes ramen").
Proof. vm_compute. reflexivity. Qed.

Example semantic_search_through_the_table :
  @MemoryWithEmbeddings.call_memory_search _ toy_embeddings
    [("query", VStr "color")] stocked_world
  = @MemoryWithEmbeddings.memory_search _ toy_embeddings "color" 3 stocked_world.
Proof. vm_compute. reflexivity. Qed.

Example three_arguments_missing :
  name_list ["task"; "status"; "blockers"] = "'task', 'status', and 'blockers'".
Proof. reflexivity. Qed.

Example unexpected_keyword_is_text :
  fst (AgentWithBehaviors.execute_tool "checkpoint_load" [("verbose", VBool true)]
         fresh_world)
  = Ret "Error: checkpoint_load() got an unexpected keyword argument 'verbose'".
Proof. reflexivity. Qed.

(** A negative [top_k] counts from the end of the ranking: with [-1] all
    but the last of the five are looked at. *)
Example semantic_search_negative_top_k :
  map MemoryWithEmbeddings.s_filename
    (MemoryWithEmbeddings.top_results (-1)
       (MemoryWithEmbeddings.sort_desc
          (map (@MemoryWithEmbeddings.score toy_embeddings [1%Q]) demo_entries)))
  = ["prefs"; "work"; "food"].
Proof. vm_compute. reflexivity. Qed.

End Runs.

(** * Further properties of the three scripts *)

(** ** Trimming *)

Module TrimMore.
Import AgentWithMemory.

Lemma last_n_snoc {A : Type} (n : nat) (l : list A) (x : A) :
  last_n (S n) (l ++ [x]) = last_n n l ++ [x].
Proof.
  unfold last_n. rewrite length_app. cbn [List.length].
  rewrite skipn_app.
  replace (List.length l + 1 - S n) with (List.length l - n) by lia.
  replace (List.length l - n - List.length l) with 0 by lia.
  reflexivity.
Qed.

(** Trimming a trimmed history changes nothing. *)
Theorem trim_messages_idempotent (messages : list Message) :
  trim_messages (trim_messages messages) = trim_messages messages.
Proof.
  destruct messages as [| system_msg rest]; [reflexivity |].
  rewrite TrimFacts.trim_cons. apply TrimFacts.trim_short.
  cbn [List.length]. rewrite last_n_length. unfold MAX_MESSAGES. lia.
Qed.

Lemma trim_cons_snoc (first : Message) (between : list Message) (newest : Message) :
  trim_messages (first :: between ++ [newest])
  = first :: last_n (MAX_MESSAGES - 1) between ++ [newest].
Proof.
  rewrite TrimFacts.trim_cons. unfold MAX_MESSAGES. cbn [Nat.sub].
  rewrite last_n_snoc. reflexivity.
Qed.

(** Trimming never drops the newest message: what was appended last is
    still last, and the first message is still first. *)
Theorem trim_messages_keeps_newest
  (first : Message) (between : list Message) (newest : Message) :
  exists kept,
    trim_messages (first :: between ++ [newest]) = first :: kept ++ [newest] /\
    List.length kept <= MAX_MESSAGES - 1.
Proof.
  exists (last_n (MAX_MESSAGES - 1) between). split.
  - apply trim_cons_snoc.
  - rewrite last_n_length. lia.
Qed.

(** The trimming written out in the [main] of [memory_with_embeddings.py]
    and of [agent_with_behaviors.py] is [trim_messages]. *)
Theorem keep_recent_is_trim_messages (messages : list Message) :
  MemoryWithEmbeddings.keep_recent messages = trim_messages messages /\
  AgentWithBehaviors.keep_recent messages = trim_messages messages.
Proof.
  unfold MemoryWithEmbeddings.keep_recent, AgentWithBehaviors.keep_recent,
    trim_messages, MAX_MESSAGES.
  destruct (Nat.ltb_spec 21 (List.length messages));
    destruct (Nat.leb_spec (List.length messages) (20 + 1)); try lia;
    split; reflexivity.
Qed.

End TrimMore.

(** ** The loop of [agent_with_memory.py] *)

Module LoopMore.
Import AgentWithMemory.

Section WithRuntime.
Context `{StrMethods} `{JsonCodec} `{CompletionService}.

Lemma run_tool_calls_tool_messages (calls : list ToolCall) (s s' : Session) :
  run_tool_calls calls s = (None, s') ->
  exists more,
    messages s' = messages s ++ more /\
    List.length more = List.length calls /\
    Forall (fun m => role m = tool) more.
Proof.
  revert s. induction calls as [| call rest IH]; intros s; cbn [run_tool_calls].
  - intros [= <-]. exists []. repeat split; [symmetry; apply app_nil_r | constructor].
  - destruct (json_loads (tc_arguments call)) as [[ | | | | | arguments] | e];
      try discriminate.
    destruct (execute_tool (tc_name call) arguments (world s)) as [[result | e] w'];
      [| discriminate].
    intros Hrun. destruct (IH _ Hrun) as (more & Hmore & Hlen & Htool).
    exists (tool_message (tc_id call) result :: more). repeat split.
    + rewrite Hmore. cbn [append_message with_world messages].
      rewrite <- app_assoc. reflexivity.
    + cbn [List.length]. congruence.
    + constructor; [reflexivity | exact Htool].
Qed.

Lemma ends_with_tool_batch (history more : list Message) :
  more <> [] -> Forall (fun m => role m = tool) more ->
  ends_with_role tool (history ++ more).
Proof.
  intros Hne Htool.
  destruct (exists_last Hne) as (front & m & ->).
  apply Forall_app in Htool as [_ Hm]. inversion Hm as [| ? ? Hrole _]; subst.
  exists (history ++ front), m. split; [apply app_assoc | exact Hrole].
Qed.

Lemma model_turns_well_formed (fuel : nat) (after : bool) (s : Session) :
  (exists rest, messages s = system_message SYSTEM_PROMPT :: rest) ->
  ends_with_role (if after then tool else user) (messages s) ->
  Forall well_formed_call (log s) ->
  Forall well_formed_call (log (snd (model_turns fuel after s))).
Proof.
  revert after s. induction fuel as [| fuel IH]; intros after s Hsys Hend Hlog;
    cbn [model_turns].
  - exact Hlog.
  - assert (Hrec : Forall well_formed_call (log (record_invocation after s))).
    { cbn [record_invocation log]. apply Forall_app. split; [exact Hlog |].
      constructor; [| constructor]. split; assumption. }
    destruct (chat_completions_create _ _) as [reply | e]; [| exact Hrec].
    destruct (am_tool_calls reply) as [[| call calls] |]; try exact Hrec.
    match goal with
    | |- context [run_tool_calls ?cs ?s2] =>
        pose proof (LoopFacts.run_tool_calls_log cs s2) as Hlog2;
        pose proof (run_tool_calls_tool_messages cs s2) as Hdone;
        destruct (run_tool_calls cs s2) as [[e |] s3]
    end; cbn [snd] in Hlog2.
    + cbn [snd]. rewrite Hlog2. exact Hrec.
    + destruct (Hdone s3 eq_refl) as (more & Hmore & Hlen & Htool).
      cbn [append_message record_invocation messages] in Hmore.
      apply IH.
      * destruct Hsys as [rest Hsys]. rewrite Hmore, Hsys.
        eexists. rewrite <- !app_comm_cons. reflexivity.
      * rewrite Hmore. apply ends_with_tool_batch; [| exact Htool].
        destruct more; [discriminate | discriminate].
      * rewrite Hlog2. exact Hrec.
Qed.

Lemma main_loop_well_formed (fuel : nat) (lines : list string) (s : Session) :
  (exists rest, messages s = system_message SYSTEM_PROMPT :: rest) ->
  Forall well_formed_call (log s) ->
  Forall well_formed_call (log (snd (main_loop fuel lines s))) /\
  exists rest,
    messages (snd (main_loop fuel lines s)) = system_message SYSTEM_PROMPT :: rest.
Proof.
  revert s. induction lines as [| line rest IH]; intros s Hsys Hlog;
    cbn [main_loop].
  - split; assumption.
  - destruct (String.eqb (lower (strip line)) "quit"); [split; assumption |].
    destruct (String.eqb (strip line) ""); [apply IH; assumption |].
    set (s2 := {| messages := trim_messages
                                (messages (append_message (user_message (strip line)) s));
                  world := world (append_message (user_message (strip line)) s);
                  log := log (append_message (user_message (strip line)) s) |}).
    destruct Hsys as [before Hsys].
    pose proof (TrimMore.trim_cons_snoc
                  (system_message SYSTEM_PROMPT) before (user_message (strip line)))
      as Hkept.
    set (kept := last_n (MAX_MESSAGES - 1) before) in Hkept.
    assert (Hs2 : messages s2
                  = system_message SYSTEM_PROMPT
                    :: kept ++ [user_message (strip line)]).
    { unfold s2. cbn [messages append_message]. rewrite Hsys. exact Hkept. }
    assert (Hlog2 :
      Forall well_formed_call (log (snd (model_turns fuel false s2)))).
    { apply model_turns_well_formed.
      - eexists. exact Hs2.
      - rewrite Hs2. exists (system_message SYSTEM_PROMPT :: kept), (user_message (strip line)).
        split; reflexivity.
      - exact Hlog. }
    destruct (LoopFacts.model_turns_messages_extend fuel false s2) as [more Hmore].
    assert (Hsys3 : exists rest',
      messages (snd (model_turns fuel false s2))
      = system_message SYSTEM_PROMPT :: rest').
    { rewrite Hmore, Hs2. eexists. rewrite <- app_comm_cons. reflexivity. }
    destruct (model_turns fuel false s2) as [[ | | e | ] s3];
      cbn [snd] in *; try (split; assumption).
    apply IH; assumption.
Qed.

(** In every run, every call of the completion service is sent a history
    that begins with the system message and ends with the message the
    call answers: the user's for the call that opens a user turn, a tool
    result for a call that follows a tool batch. The history kept when
    the run stops begins with the system message too. *)
Theorem every_call_well_formed (fuel : nat) (lines : list string) (w : World) :
  let run := main fuel lines w in
  Forall
    (fun inv =>
       (exists rest, sent inv = system_message SYSTEM_PROMPT :: rest) /\
       ends_with_role (if after_tools inv then tool else user) (sent inv))
    (log (snd run)) /\
  exists rest, messages (snd run) = system_message SYSTEM_PROMPT :: rest.
Proof.
  cbn zeta. unfold main. apply main_loop_well_formed.
  - eexists. reflexivity.
  - constructor.
Qed.

(** *** A model that never asks for a tool *)

Lemma model_turns_without_tools (fuel : nat) (after : bool) (s : Session) :
  never_asks ->
  fst (model_turns (S fuel) after s) <> OutOfFuel /\
  world (snd (model_turns (S fuel) after s)) = world s /\
  log (snd (model_turns (S fuel) after s))
  = log s ++ [{| after_tools := after; sent := messages s |}].
Proof.
  intros Hnever. cbn [model_turns].
  destruct (chat_completions_create _ _) as [reply | e] eqn:Hreply.
  - destruct (Hnever _ _ _ Hreply) as [-> | ->];
      repeat split; discriminate.
  - repeat split; discriminate.
Qed.

Lemma main_loop_without_tools (fuel : nat) (lines : list string) (s : Session) :
  never_asks ->
  Forall (fun inv => after_tools inv = false) (log s) ->
  fst (main_loop (S fuel) lines s) <> OutOfFuel /\
  world (snd (main_loop (S fuel) lines s)) = world s /\
  Forall (fun inv => after_tools inv = false)
    (log (snd (main_loop (S fuel) lines s))).
Proof.
  intros Hnever. revert s.
  induction lines as [| line rest IH]; intros s Hlog; cbn [main_loop].
  - repeat split; [discriminate | exact Hlog].
  - destruct (String.eqb (lower (strip line)) "quit");
      [repeat split; [discriminate | exact Hlog] |].
    destruct (String.eqb (strip line) ""); [apply IH; exact Hlog |].
    match goal with
    | |- context [model_turns (S fuel) false ?s2] =>
        destruct (model_turns_without_tools fuel false s2 Hnever)
          as (Hstatus & Hworld & Hlog2);
        destruct (model_turns (S fuel) false s2) as [st s3] eqn:Hturn
    end.
    cbn [fst snd world log append_message] in *.
    assert (Hlog3 : Forall (fun inv => after_tools inv = false) (log s3)).
    { rewrite Hlog2. apply Forall_app. split; [exact Hlog |].
      constructor; [reflexivity | constructor]. }
    destruct st; cbn [fst snd].
    + destruct (IH s3 Hlog3) as (Hst & Hw & Hl).
      repeat split; [exact Hst | congruence | exact Hl].
    + repeat split; [discriminate | exact Hworld | exact Hlog3].
    + repeat split; [discriminate | exact Hworld | exact Hlog3].
    + congruence.
Qed.

End WithRuntime.

(** With a model that never asks for a tool, and fuel for one round, the
    loop never touches the disk or the clock, each user turn is one call
    of the service, and no turn is cut short for lack of fuel. *)
Theorem loop_alone_leaves_the_world
  `{StrMethods} `{JsonCodec} `{CompletionService}
  (fuel : nat) (lines : list string) (w : World) :
  (forall n history reply,
     chat_completions_create n history = Ret reply ->
     am_tool_calls reply = None \/ am_tool_calls reply = Some []) ->
  let run := main (S fuel) lines w in
  world (snd run) = w /\
  fst run <> OutOfFuel /\
  Forall (fun inv => after_tools inv = false) (log (snd run)).
Proof.
  intros Hnever. cbn zeta. unfold main.
  destruct (main_loop_without_tools fuel lines
              {| messages := [system_message SYSTEM_PROMPT];
                 world := w; log := [] |} Hnever)
    as (Hstatus & Hworld & Hlog); [constructor |].
  repeat split; assumption.
Qed.

Import Demo.

Lemma loop_alone_leaves_the_world_witness :
  let run := @main ascii_str tiny_json plain_model 1
               ["remember the milk"; "and the eggs"; "quit"]%string stocked_world in
  world (snd run) = stocked_world /\
  fst run = Exited /\
  List.length (log (snd run)) = 2.
Proof.
  destruct (@loop_alone_leaves_the_world ascii_str tiny_json plain_model 0
              ["remember the milk"; "and the eggs"; "quit"]%string stocked_world)
    as (Hworld & _ & _).
  - intros n history reply [= <-]. left. reflexivity.
  - split; [exact Hworld |]. split; reflexivity.
Defined.

End LoopMore.

(** ** Computations, once more *)

Section MonadMore.
Context {A B : Type}.

Lemma bind_returns (m : M A) (k : A -> M B) (w w' : World) (b : B) :
  bind m k w = (Ret b, w') ->
  exists a w0, m w = (Ret a, w0) /\ k a w0 = (Ret b, w').
Proof.
  unfold bind. destruct (m w) as [[a | e] w0]; [| discriminate].
  intros Hk. exists a, w0. split; [reflexivity | exact Hk].
Qed.

Lemma bind_raises (m : M A) (k : A -> M B) (w w' : World) (e : exn) :
  bind m k w = (Raise e, w') ->
  m w = (Raise e, w') \/
  exists a w0, m w = (Ret a, w0) /\ k a w0 = (Raise e, w').
Proof.
  unfold bind. destruct (m w) as [[a | e0] w0].
  - intros Hk. right. exists a, w0. split; [reflexivity | exact Hk].
  - intros [= <- <-]. left. reflexivity.
Qed.

Lemma reads_only_ret (a : A) : reads_only (ret a).
Proof. intros w. reflexivity. Qed.

Lemma reads_only_raise (e : exn) : reads_only (@raise A e).
Proof. intros w. reflexivity. Qed.

Lemma reads_only_lift (o : outcome A) : reads_only (lift o).
Proof. intros w. reflexivity. Qed.

Lemma reads_only_bind (m : M A) (k : A -> M B) :
  reads_only m -> (forall a, reads_only (k a)) -> reads_only (bind m k).
Proof.
  intros Hm Hk w. unfold bind. specialize (Hm w).
  destruct (m w) as [[a | e] w0]; cbn [snd] in *; subst w0.
  - apply Hk.
  - reflexivity.
Qed.

Lemma reads_only_try (body : M A) (handler : exn -> M A) :
  reads_only body -> (forall e, reads_only (handler e)) ->
  reads_only (try_except body handler).
Proof.
  intros Hm Hk w. unfold try_except. specialize (Hm w).
  destruct (body w) as [[a | e] w0]; cbn [snd] in *; subst w0.
  - reflexivity.
  - apply Hk.
Qed.

End MonadMore.

Section ReadersMore.
Context `{JsonCodec}.

Lemma reads_only_exists (path : string) : reads_only (os_path_exists path).
Proof. intros w. reflexivity. Qed.

Lemma reads_only_listdir (path : string) : reads_only (os_listdir path).
Proof.
  intros w. unfold os_listdir.
  destruct (assoc path (fs w)) as [[ | | | ] |]; reflexivity.
Qed.

Lemma reads_only_read_text (path : string) : reads_only (read_text path).
Proof. intros w. apply read_text_world. Qed.

Lemma reads_only_read_json (path : string) : reads_only (read_json path).
Proof.
  intros w. unfold read_json.
  destruct (assoc path (fs w)) as [[ | | | ] |]; reflexivity.
Qed.

Lemma reads_only_bind_kwargs fname params kw :
  reads_only (bind_kwargs fname params kw).
Proof.
  intros w. unfold bind_kwargs.
  destruct (first_unexpected params kw); [reflexivity |].
  destruct (bind_params params kw) as [[| p missing] bound]; reflexivity.
Qed.

Lemma reads_only_arg_str p bound : reads_only (arg_str p bound).
Proof.
  intros w. unfold arg_str. destruct (arg_value p bound); reflexivity.
Qed.

Lemma reads_only_arg_int p bound : reads_only (arg_int p bound).
Proof.
  intros w. unfold arg_int. destruct (arg_value p bound); try reflexivity.
  destruct (Pos.eqb (Qden q) 1); reflexivity.
Qed.

Lemma reads_only_minute : reads_only now_strftime_minute.
Proof. intros w. reflexivity. Qed.

Lemma reads_only_second : reads_only now_strftime_second.
Proof. intros w. reflexivity. Qed.

Lemma reads_only_isoformat : reads_only now_isoformat.
Proof. intros w. reflexivity. Qed.


Lemma f_write_raises (path data : string) (w w' : World) (e : exn) :
  f_write path data w = (Raise e, w') -> w' = w.
Proof.
  unfold f_write. destruct (write_fault w path).
  - intros [= _ <-]. reflexivity.
  - destruct (assoc path (fs w)) as [[ | | | ] |]; try discriminate;
      intros [= _ <-]; reflexivity.
Qed.

End ReadersMore.

Create HintDb readers.

#[local] Hint Resolve reads_only_ret reads_only_raise reads_only_lift
  reads_only_exists reads_only_listdir reads_only_read_text
  reads_only_read_json reads_only_bind_kwargs reads_only_arg_str
  reads_only_arg_int reads_only_minute reads_only_second
  reads_only_isoformat : readers.

Ltac reader :=
  repeat first
    [ solve [auto with readers]
    | apply reads_only_bind; [| intros ?]
    | apply reads_only_try; [| intros ?]
    | match goal with
      | |- reads_only (if ?c then _ else _) => destruct c
      | |- reads_only (match ?x with _ => _ end) => destruct x
      end ].

(** ** Notes in [agent_with_memory.py] *)

Module NotesMore.
Import AgentWithMemory.

Section WithRuntime.
Context `{StrMethods} `{JsonCodec}.
Local Open Scope string_scope.

Lemma str_app_assoc (a b c : string) : (a ++ b) ++ c = a ++ b ++ c.
Proof.
  induction a as [| x a IH]; cbn [append]; [reflexivity | rewrite IH; reflexivity].
Qed.

Lemma memory_read_resolves (filename : string) (w : World) :
  endswith filename ".md" = false ->
  memory_read filename w = memory_read (filename ++ ".md") w.
Proof.
  intros Hmd. unfold memory_read.
  rewrite Hmd, (endswith_app filename ".md" ".md" (endswith_refl _)).
  reflexivity.
Qed.

Lemma memory_read_file (filename text : string) (w : World) :
  assoc (os_path_join MEMORY_DIR (filename ++ ".md")) (fs w) = Some (File text) ->
  memory_read (filename ++ ".md") w = (Ret text, w).
Proof.
  intros Hfile. unfold memory_read.
  rewrite (endswith_app filename ".md" ".md" (endswith_refl _)). cbn [negb].
  unfold try_except, read_text. rewrite Hfile. reflexivity.
Qed.


(** The three steps of the [with] block of [memory_write], when the
    function reports success. *)
Lemma memory_write_steps (filename content : string) (append : bool)
  (w w1 : World) :
  memory_write filename content append w
    = (Ret ("✓ Saved to memory: " ++ filename ++ ".md"), w1) ->
  let filepath := os_path_join MEMORY_DIR (filename ++ ".md") in
  let entry := nl ++ "## [" ++ strftime_minute (clock w) ++ "]" ++ nl
               ++ content ++ nl in
  exists w0 w0',
    open_write filepath append w = (Ret tt, w0) /\
    (if negb append then f_write filepath ("# " ++ filename ++ nl) else ret tt) w0
      = (Ret tt, w0') /\
    f_write filepath entry w0' = (Ret tt, w1).
Proof.
  unfold memory_write. cbn zeta.
  unfold bind at 1, now_strftime_minute. unfold try_except.
  match goal with
  | |- context [bind (open_write ?p ?a) ?k w] =>
      destruct (bind (open_write p a) k w) as [[r | e] w'] eqn:Hbody
  end.
  2: { cbn. intros Heq. discriminate Heq. }
  intros [= -> ->].
  apply bind_returns in Hbody as ([] & w0 & Hopen & Hbody).
  apply bind_returns in Hbody as ([] & w0' & Hhead & Hbody).
  apply bind_returns in Hbody as ([] & w1' & Hentry & Hret).
  assert (w1' = w1) as -> by (unfold ret in Hret; congruence).
  exists w0, w0'. repeat split; assumption.
Qed.


(** In append mode, an existing note gets the new block at its end. *)
Lemma memory_write_appends (filename content text : string) (w : World) :
  let filepath := os_path_join MEMORY_DIR (filename ++ ".md") in
  let entry := nl ++ "## [" ++ strftime_minute (clock w) ++ "]" ++ nl
               ++ content ++ nl in
  assoc filepath (fs w) = Some (File text) ->
  write_fault w filepath = None ->
  memory_write filename content true w
  = (Ret ("✓ Saved to memory: " ++ filename ++ ".md"),
     with_fs w (fs_set filepath (File (text ++ entry)) (fs w))).
Proof.
  intros filepath entry Hfile Hfault.
  unfold memory_write, bind, now_strftime_minute, try_except, open_write, f_write, ret.
  fold filepath. rewrite Hfile. cbn [negb]. rewrite Hfault, Hfile. reflexivity.
Qed.

(** Append accumulation. Writing any number of contents in append mode
    to one note, each at its own time, leaves the note with what it held
    before followed by one stamped block per write, in write order. *)
Theorem appends_accumulate (filename : string)
  (writes : list (Clock * string)) (w : World) (text : string) :
  let filepath := os_path_join MEMORY_DIR (filename ++ ".md") in
  let block (write : Clock * string) :=
    nl ++ "## [" ++ strftime_minute (fst write) ++ "]" ++ nl ++ snd write ++ nl in
  let write_one (w : World) (write : Clock * string) :=
    snd (memory_write filename (snd write) true (with_clock w (fst write))) in
  assoc filepath (fs w) = Some (File text) ->
  write_fault w filepath = None ->
  assoc filepath (fs (fold_left write_one writes w))
  = Some (File (text ++ fold_right append "" (map block writes))).
Proof.
  intros filepath block write_one. revert w text.
  induction writes as [| [c content] rest IH]; intros w text Hfile Hfault.
  - cbn. replace (text ++ "") with text; [exact Hfile |].
    clear. induction text as [| x t IHt]; cbn; congruence.
  - cbn [fold_left map fold_right]. unfold write_one at 2. cbn [fst snd].
    rewrite (memory_write_appends filename content text (with_clock w c) Hfile Hfault).
    cbn [snd]. rewrite IH with (text := text ++ block (c, content)).
    + rewrite str_app_assoc. reflexivity.
    + cbn [with_fs with_clock fs clock]. apply assoc_fs_set_same.
    + exact Hfault.
Qed.


(** An absolute name is not confined to the memory directory:
    [os.path.join] lets it replace the directory, and [memory_read]
    returns the file it points to. *)
Theorem absolute_name_leaves_directory (rest text : string) (w : World) :
  let filename := String slash rest in
  endswith filename ".md" = false ->
  assoc (filename ++ ".md") (fs w) = Some (File text) ->
  os_path_join MEMORY_DIR (filename ++ ".md") = filename ++ ".md" /\
  memory_read filename w = (Ret text, w).
Proof.
  intros filename Hmd Hfile.
  assert (Hjoin : os_path_join MEMORY_DIR (filename ++ ".md") = filename ++ ".md")
    by reflexivity.
  split; [exact Hjoin |].
  rewrite (memory_read_resolves _ _ Hmd). apply memory_read_file.
  rewrite Hjoin. exact Hfile.
Qed.

End WithRuntime.

Import Demo.
Local Open Scope string_scope.


Lemma appends_accumulate_witness :
  let w' :=
    fold_left
      (fun w write =>
         snd (memory_write "todo" (snd write) true (with_clock w (fst write))))
      [(noon, "buy eggs"); (later, "call Joe")] stocked_world in
  assoc "./memory/todo.md" (fs w')
  = Some (File ("buy milk"
                ++ nl ++ "## [2025-01-01 12:00]" ++ nl ++ "buy eggs" ++ nl
                ++ nl ++ "## [2025-01-01 12:05]" ++ nl ++ "call Joe" ++ nl)).
Proof.
  exact (@appends_accumulate tiny_json "todo"
           [(noon, "buy eggs"); (later, "call Joe")] stocked_world "buy milk"
           eq_refl eq_refl).
Defined.


Lemma absolute_name_leaves_directory_witness :
  let w := {| fs := [("/etc/motd.md", File "welcome")]; clock := noon;
              write_fault := fun _ => None |} in
  memory_read "/etc/motd" w = (Ret "welcome", w).
Proof.
  intros w.
  destruct (@absolute_name_leaves_directory tiny_json "etc/motd" "welcome" w
              eq_refl eq_refl) as [_ Hread].
  exact Hread.
Defined.

End NotesMore.

(** ** What the tools may change *)

Section FrameMore.
Context `{JsonCodec}.
Variable paths : list string.

Lemma within_reads {A} (m : M A) : reads_only m -> writes_within paths m.
Proof.
  intros Hm w. rewrite (Hm w). repeat split.
Qed.

Lemma within_bind {A B} (m : M A) (k : A -> M B) :
  writes_within paths m -> (forall a, writes_within paths (k a)) ->
  writes_within paths (bind m k).
Proof.
  intros Hm Hk w. unfold bind. specialize (Hm w).
  destruct (m w) as [[a | e] w0]; cbn [snd] in *; [| exact Hm].
  destruct Hm as (Hc & Hf & Ho). destruct (Hk a w0) as (Hc' & Hf' & Ho').
  repeat split; try congruence.
  intros other Hout. rewrite Ho', Ho by assumption. reflexivity.
Qed.

Lemma within_try {A} (body : M A) (handler : exn -> M A) :
  writes_within paths body -> (forall e, writes_within paths (handler e)) ->
  writes_within paths (try_except body handler).
Proof.
  intros Hm Hk w. unfold try_except. specialize (Hm w).
  destruct (body w) as [[a | e] w0]; cbn [snd] in *; [exact Hm |].
  destruct Hm as (Hc & Hf & Ho). destruct (Hk e w0) as (Hc' & Hf' & Ho').
  repeat split; try congruence.
  intros other Hout. rewrite Ho', Ho by assumption. reflexivity.
Qed.

Lemma within_set (path : string) (n : node) (w : World) :
  In path paths ->
  clock (with_fs w (fs_set path n (fs w))) = clock w /\
  write_fault (with_fs w (fs_set path n (fs w))) = write_fault w /\
  forall other, ~ In other paths ->
    assoc other (fs (with_fs w (fs_set path n (fs w)))) = assoc other (fs w).
Proof.
  intros Hin. repeat split. intros other Hout. cbn [with_fs fs].
  apply assoc_fs_set_other. intros ->. contradiction.
Qed.

Lemma within_open_write (path : string) (append : bool) :
  In path paths -> writes_within paths (open_write path append).
Proof.
  intros Hin w. unfold open_write.
  destruct (assoc path (fs w)) as [[text | doc | | e] |]; cbn [snd];
    try (repeat split; fail).
  - destruct append; cbn [snd]; [repeat split | apply within_set, Hin].
  - destruct append; cbn [snd]; [repeat split | apply within_set, Hin].
  - destruct (parent_ready path (fs w)); cbn [snd];
      [repeat split | apply within_set, Hin].
Qed.

Lemma within_f_write (path data : string) :
  In path paths -> writes_within paths (f_write path data).
Proof.
  intros Hin w. unfold f_write.
  destruct (write_fault w path); [repeat split |].
  destruct (assoc path (fs w)) as [[text | doc | | e] |]; cbn [snd];
    try (repeat split; fail); apply within_set, Hin.
Qed.

Lemma within_json_dump (doc : json_doc) (path : string) :
  In path paths -> writes_within paths (json_dump doc path).
Proof.
  intros Hin w. unfold json_dump.
  destruct (write_fault w path); cbn [snd]; [repeat split | apply within_set, Hin].
Qed.

End FrameMore.

Ltac framer :=
  repeat first
    [ apply within_bind; [| intros ?]
    | apply within_try; [| intros ?]
    | apply within_open_write; cbn [In]; tauto
    | apply within_f_write; cbn [In]; tauto
    | apply within_json_dump; cbn [In]; tauto
    | apply within_reads; solve [reader]
    | match goal with
      | |- writes_within _ (if ?c then _ else _) => destruct c
      | |- writes_within _ (match ?x with _ => _ end) => destruct x
      end ].

Module FrameFacts.
Section WithRuntime.
Context `{StrMethods} `{JsonCodec} `{MemoryWithEmbeddings.EmbeddingService}.
Local Open Scope string_scope.


End WithRuntime.
End FrameFacts.

(** ** What the tools never change *)

Module ReadOnlyFacts.
Section WithRuntime.
Context `{StrMethods} `{JsonCodec} `{MemoryWithEmbeddings.EmbeddingService}.
Local Open Scope string_scope.

Lemma memory_search_notes_read (query_lower : string) (filenames results : list string) :
  reads_only (AgentWithMemory.search_notes query_lower filenames results).
Proof.
  revert results. induction filenames as [| filename rest IH]; intros results;
    cbn [AgentWithMemory.search_notes]; [reader |].
  destruct (endswith filename ".md"); [| apply IH].
  apply reads_only_bind; [reader | intros results'; apply IH].
Qed.

Lemma behaviors_search_notes_read (query_lower : string) (filenames results : list string) :
  reads_only (AgentWithBehaviors.search_notes query_lower filenames results).
Proof.
  revert results. induction filenames as [| filename rest IH]; intros results;
    cbn [AgentWithBehaviors.search_notes]; [reader |].
  destruct (endswith filename ".md"); [| apply IH].
  apply reads_only_bind; [reader | intros content].
  destruct (contains query_lower (lower content)); apply IH.
Qed.

#[local] Hint Resolve memory_search_notes_read behaviors_search_notes_read
  : readers.

Lemma memory_tools_read :
  reads_only AgentWithMemory.memory_list /\
  reads_only AgentWithMemory.get_current_time /\
  (forall query, reads_only (AgentWithMemory.memory_search query)) /\
  (forall filename, reads_only (AgentWithMemory.memory_read filename)).
Proof.
  repeat apply conj.
  - unfold AgentWithMemory.memory_list. reader.
  - unfold AgentWithMemory.get_current_time. reader.
  - intros query. unfold AgentWithMemory.memory_search. reader.
  - intros filename. unfold AgentWithMemory.memory_read. reader.
Qed.

Lemma embeddings_tools_read :
  reads_only MemoryWithEmbeddings.memory_list /\
  reads_only MemoryWithEmbeddings.get_current_time /\
  (forall query top_k, reads_only (MemoryWithEmbeddings.memory_search query top_k)) /\
  (forall filename, reads_only (MemoryWithEmbeddings.memory_read filename)).
Proof.
  repeat apply conj.
  - unfold MemoryWithEmbeddings.memory_list. reader.
  - unfold MemoryWithEmbeddings.get_current_time. reader.
  - intros query top_k.
    unfold MemoryWithEmbeddings.memory_search, MemoryWithEmbeddings.load_embeddings,
      MemoryWithEmbeddings.entries_of. reader.
  - intros filename.
    unfold MemoryWithEmbeddings.memory_read, try_except_FileNotFoundError. reader.
Qed.

Lemma behaviors_tools_read :
  reads_only AgentWithBehaviors.checkpoint_load /\
  reads_only AgentWithBehaviors.get_current_time /\
  (forall query, reads_only (AgentWithBehaviors.memory_search query)) /\
  (forall filename, reads_only (AgentWithBehaviors.memory_read filename)) /\
  (forall path, reads_only (AgentWithBehaviors.read_file path)) /\
  (forall path, reads_only (AgentWithBehaviors.list_files path)).
Proof.
  repeat apply conj.
  - unfold AgentWithBehaviors.checkpoint_load. reader.
  - unfold AgentWithBehaviors.get_current_time. reader.
  - intros query. unfold AgentWithBehaviors.memory_search. reader.
  - intros filename.
    unfold AgentWithBehaviors.memory_read, try_except_FileNotFoundError. reader.
  - intros path. unfold AgentWithBehaviors.read_file. reader.
  - intros path. unfold AgentWithBehaviors.list_files. reader.
Qed.

(** Through each of the three dispatchers, only the writing tools can
    change the disk: every other tool name, known or not, with whatever
    arguments, leaves every file and the clock as they were. The writing
    tools are [memory_write], and in [agent_with_behaviors.py] also
    [checkpoint_save] and [write_file]. *)
Theorem only_writers_change_the_world (name : string) (args : kwargs) :
  (name <> "memory_write" ->
   reads_only (AgentWithMemory.execute_tool name args)) /\
  (name <> "memory_write" ->
   reads_only (MemoryWithEmbeddings.execute_tool name args)) /\
  (name <> "memory_write" -> name <> "checkpoint_save" -> name <> "write_file" ->
   reads_only (AgentWithBehaviors.execute_tool name args)).
Proof.
  destruct memory_tools_read as (Hl1 & Ht1 & Hs1 & Hr1).
  destruct embeddings_tools_read as (Hl2 & Ht2 & Hs2 & Hr2).
  destruct behaviors_tools_read as (Hc3 & Ht3 & Hs3 & Hr3 & Hf3 & Hd3).
  split; [| split].
  - intros Hname.
    unfold AgentWithMemory.execute_tool, AgentWithMemory.TOOL_FUNCTIONS.
    cbn [assoc].
    repeat match goal with
           | |- context [String.eqb ?a name] =>
               destruct (String.eqb_spec a name); [try congruence |]
           end;
      try (apply reads_only_try; [| intros e; reader]);
      [ unfold AgentWithMemory.call_memory_search
      | unfold AgentWithMemory.call_memory_list
      | unfold AgentWithMemory.call_memory_read
      | unfold AgentWithMemory.call_get_current_time
      | ]; reader; auto.
  - intros Hname.
    unfold MemoryWithEmbeddings.execute_tool, MemoryWithEmbeddings.TOOL_FUNCTIONS.
    cbn [assoc].
    repeat match goal with
           | |- context [String.eqb ?a name] =>
               destruct (String.eqb_spec a name); [try congruence |]
           end;
      try (apply reads_only_try; [| intros e; reader]);
      [ unfold MemoryWithEmbeddings.call_memory_search
      | unfold MemoryWithEmbeddings.call_memory_list
      | unfold MemoryWithEmbeddings.call_memory_read
      | unfold MemoryWithEmbeddings.call_get_current_time
      | ]; reader; auto.
  - intros Hname1 Hname2 Hname3.
    unfold AgentWithBehaviors.execute_tool, AgentWithBehaviors.TOOL_FUNCTIONS.
    cbn [assoc].
    repeat match goal with
           | |- context [String.eqb ?a name] =>
               destruct (String.eqb_spec a name); [try congruence |]
           end;
      try (apply reads_only_try; [| intros e; reader]);
      [ unfold AgentWithBehaviors.call_memory_search
      | unfold AgentWithBehaviors.call_memory_read
      | unfold AgentWithBehaviors.call_checkpoint_load
      | unfold AgentWithBehaviors.call_read_file
      | unfold AgentWithBehaviors.call_list_files
      | unfold AgentWithBehaviors.call_get_current_time
      | ]; reader; auto.
Qed.

End WithRuntime.
End ReadOnlyFacts.

(** ** Names of notes *)

Module NoteNames.
Import AgentWithMemory.

Section Paths.
Local Open Scope string_scope.

Lemma str_length_app (a b : string) :
  String.length (a ++ b) = String.length a + String.length b.
Proof.
  induction a as [| x a IH]; cbn [append String.length]; [reflexivity | lia].
Qed.

Lemma str_app_inv_head (a b c : string) : a ++ b = a ++ c -> b = c.
Proof.
  induction a as [| x a IH]; cbn [append]; [auto |].
  intros [= Heq]. auto.
Qed.

Lemma name_differs_from_md (name : string) : name <> name ++ ".md".
Proof.
  intros Heq. apply (f_equal String.length) in Heq.
  rewrite str_length_app in Heq. cbn in Heq. lia.
Qed.

Lemma join_differs (d name : string) :
  os_path_join d name <> os_path_join d (name ++ ".md").
Proof.
  unfold os_path_join. destruct name as [| c rest]; cbn [append].
  - intros Heq. apply str_app_inv_head in Heq. discriminate.
  - destruct (Ascii.eqb c slash).
    + intros [= Heq]. exact (name_differs_from_md rest Heq).
    + intros Heq. apply str_app_inv_head in Heq. injection Heq as Heq.
      exact (name_differs_from_md rest Heq).
Qed.

Lemma remove_prefix_app (pre rest : string) :
  remove_prefix pre (pre ++ rest) = Some rest.
Proof.
  induction pre as [| a pre IH]; cbn [append remove_prefix]; [reflexivity |].
  rewrite Ascii.eqb_refl. exact IH.
Qed.

Lemma dirname_app (a b : string) :
  dirname a = None -> dirname b = None -> dirname (a ++ b) = None.
Proof.
  intros Ha Hb. induction a as [| c a IH]; cbn [append]; [exact Hb |].
  cbn [dirname] in *. destruct (dirname a) as [d |]; [discriminate |].
  rewrite IH by reflexivity. exact Ha.
Qed.

(** A name without a separator is joined to the directory, and is the
    entry name of the path it gives. *)
Lemma plain_name_is_child (d name : string) :
  name <> "" -> dirname name = None ->
  os_path_join d name = d ++ "/" ++ name /\
  child_of d (os_path_join d name) = Some name.
Proof.
  intros Hne Hplain.
  assert (Hjoin : os_path_join d name = d ++ "/" ++ name).
  { unfold os_path_join. destruct name as [| c rest]; [reflexivity |].
    destruct (Ascii.eqb c slash) eqn:Hc; [| reflexivity].
    cbn [dirname] in Hplain. rewrite Hc in Hplain.
    destruct (dirname rest); discriminate. }
  split; [exact Hjoin |].
  rewrite Hjoin. unfold child_of.
  rewrite <- NotesMore.str_app_assoc.
  rewrite remove_prefix_app.
  destruct (String.eqb_spec name ""); [contradiction |].
  rewrite Hplain. reflexivity.
Qed.

Lemma stored_child_is_listed (d path name : string) (n : node)
  (l : list (string * node)) :
  assoc path l = Some n -> child_of d path = Some name ->
  In name (children d l).
Proof.
  intros Hfile Hchild. induction l as [| [p m] l IH]; [discriminate |].
  cbn [assoc] in Hfile. cbn [children].
  destruct (String.eqb_spec p path) as [-> | Hp].
  - rewrite Hchild. left. reflexivity.
  - destruct (child_of d p); [right |]; auto.
Qed.

End Paths.

Section WithRuntime.
Context `{StrMethods} `{JsonCodec}.
Local Open Scope string_scope.

Lemma memory_write_within (filename content : string) (append : bool) :
  writes_within [os_path_join MEMORY_DIR (filename ++ ".md")]
    (memory_write filename content append).
Proof.
  unfold memory_write. framer.
Qed.

(** What a write that reports success leaves on the disk: a text file
    under the name with [.md], every other path as it was. *)
Lemma memory_write_stored (filename content : string) (append : bool)
  (w w1 : World) :
  memory_write filename content append w
    = (Ret ("✓ Saved to memory: " ++ filename ++ ".md"), w1) ->
  let filepath := os_path_join MEMORY_DIR (filename ++ ".md") in
  (exists text, assoc filepath (fs w1) = Some (File text)) /\
  forall other, other <> filepath -> assoc other (fs w1) = assoc other (fs w).
Proof.
  intros Hwrite filepath. split.
  - destruct (NotesMore.memory_write_steps _ _ _ _ _ Hwrite)
      as (w0 & w0' & _ & _ & Hentry).
    apply f_write_done in Hentry as [_ [text Htext]].
    eexists. exact Htext.
  - intros other Hother.
    destruct (memory_write_within filename content append w) as (_ & _ & Hframe).
    rewrite Hwrite in Hframe. cbn [snd] in Hframe. apply Hframe.
    cbn [In]. intros [Heq | []]. apply Hother. symmetry. exact Heq.
Qed.

(** A name that already ends in [.md] is written under [name.md.md] but
    read under [name.md]: unless a file of that name was there before,
    reading the note back under the name it was written with finds
    nothing, and it is found under the name with [.md] appended. *)
Theorem md_name_is_read_elsewhere (filename content : string) (append : bool)
  (w w1 : World) :
  endswith filename ".md" = true ->
  memory_write filename content append w
    = (Ret ("✓ Saved to memory: " ++ filename ++ ".md"), w1) ->
  assoc (os_path_join MEMORY_DIR filename) (fs w) = None ->
  memory_read filename w1 = (Ret ("Memory file not found: " ++ filename), w1) /\
  exists text, memory_read (filename ++ ".md") w1 = (Ret text, w1).
Proof.
  intros Hmd Hwrite Hnone.
  destruct (memory_write_stored _ _ _ _ _ Hwrite) as [[text Htext] Hframe].
  split.
  - unfold memory_read. rewrite Hmd. cbn [negb].
    unfold try_except, read_text.
    rewrite Hframe by apply join_differs. rewrite Hnone. reflexivity.
  - exists text. apply NotesMore.memory_read_file. exact Htext.
Qed.

(** Composition. After a write that reports success, under a name
    without a path separator and with the memory directory in place,
    [memory_list] lists the note. *)
Theorem written_note_is_listed (filename content : string) (append : bool)
  (w w1 : World) :
  memory_write filename content append w
    = (Ret ("✓ Saved to memory: " ++ filename ++ ".md"), w1) ->
  assoc MEMORY_DIR (fs w) = Some Dir ->
  dirname filename = None ->
  exists files,
    In (filename ++ ".md") files /\
    memory_list w1
    = (Ret ("Memory files:" ++ nl ++ join nl (map (fun f => "- " ++ f) files)), w1).
Proof.
  intros Hwrite Hdir Hplain.
  destruct (memory_write_stored _ _ _ _ _ Hwrite) as [[text Htext] Hframe].
  assert (Hname : filename ++ ".md" <> "")
    by (destruct filename; discriminate).
  assert (Hplain' : dirname (filename ++ ".md") = None)
    by (apply dirname_app; [exact Hplain | reflexivity]).
  destruct (plain_name_is_child MEMORY_DIR _ Hname Hplain') as [Hjoin Hchild].
  assert (Hdir1 : assoc MEMORY_DIR (fs w1) = Some Dir).
  { rewrite Hframe; [exact Hdir |]. intros Heq.
    pose proof (md_path_not_json MEMORY_DIR filename) as Hend.
    rewrite <- Heq in Hend. vm_compute in Hend. discriminate. }
  pose proof (stored_child_is_listed _ _ _ _ _ Htext Hchild) as Hlisted.
  assert (Hin : In (filename ++ ".md")
                  (filter (fun f => endswith f ".md") (children MEMORY_DIR (fs w1)))).
  { apply filter_In. split; [exact Hlisted |]. cbv beta.
    apply endswith_app, endswith_refl. }
  exists (filter (fun f => endswith f ".md") (children MEMORY_DIR (fs w1))).
  split; [exact Hin |].
  unfold memory_list.
  unfold bind at 1, os_path_exists at 1. rewrite Hdir1. cbn [negb].
  unfold bind at 1, os_listdir at 1. rewrite Hdir1.
  destruct (filter (fun f => endswith f ".md") (children MEMORY_DIR (fs w1)))
    as [| f files] eqn:Hfiles; [| reflexivity].
  contradiction.
Qed.

End WithRuntime.

Import Demo.
Local Open Scope string_scope.

Lemma md_name_is_read_elsewhere_witness :
  exists w1,
    memory_write "recipes.md" "ramen: 3 minutes" true fresh_world
      = (Ret "✓ Saved to memory: recipes.md.md", w1) /\
    memory_read "recipes.md" w1 = (Ret "Memory file not found: recipes.md", w1) /\
    memory_read "recipes.md.md" w1
      = (Ret (nl ++ "## [2025-01-01 12:00]" ++ nl ++ "ramen: 3 minutes" ++ nl), w1).
Proof.
  eexists. split; [vm_compute; reflexivity |].
  match goal with
  | |- memory_read _ ?w1 = _ /\ _ =>
      destruct (@md_name_is_read_elsewhere tiny_json "recipes.md" "ramen: 3 minutes"
                  true fresh_world w1) as [Hmissing _]
  end.
  - reflexivity.
  - vm_compute. reflexivity.
  - reflexivity.
  - split; [exact Hmissing | vm_compute; reflexivity].
Defined.

Lemma written_note_is_listed_witness :
  exists w1,
    memory_write "travel" "Lisbon in May" true stocked_world
      = (Ret "✓ Saved to memory: travel.md", w1) /\
    exists files,
      In "travel.md" files /\
      memory_list w1
      = (Ret ("Memory files:" ++ nl ++ join nl (map (fun f => "- " ++ f) files)), w1).
Proof.
  eexists. split; [vm_compute; reflexivity |].
  eapply (@written_note_is_listed tiny_json "travel" "Lisbon in May" true stocked_world).
  - vm_compute. reflexivity.
  - reflexivity.
  - reflexivity.
Defined.

End NoteNames.

(** ** Ranking, once more *)

Module RankingMore.
Import MemoryWithEmbeddings.

Lemma tied_head (item : Scored) (l : list Scored) :
  tied (similarity item) (item :: l) = item :: tied (similarity item) l.
Proof.
  unfold tied. cbn [filter]. rewrite Qeq_bool_refl. reflexivity.
Qed.

Lemma tied_cons (q : Q) (item : Scored) (l : list Scored) :
  tied q (item :: l)
  = if Qeq_bool (similarity item) q then item :: tied q l else tied q l.
Proof. reflexivity. Qed.

Lemma tied_in (q : Q) (item : Scored) (l : list Scored) :
  In item (tied q l) -> In item l.
Proof.
  unfold tied. intros Hin. apply filter_In in Hin. tauto.
Qed.

(** Two arrangements in non-increasing order that agree on the order of
    the items of every similarity are the same list. *)
Lemma sorted_and_tied_determine (l1 l2 : list Scored) :
  StronglySorted desc l1 -> StronglySorted desc l2 ->
  (forall q, tied q l1 = tied q l2) ->
  l1 = l2.
Proof.
  intros Hs1. revert l2.
  induction Hs1 as [| x l1 Hs1 IH Hx]; intros l2 Hs2 Htied.
  - destruct l2 as [| y l2]; [reflexivity |].
    specialize (Htied (similarity y)). rewrite tied_head in Htied. discriminate.
  - destruct Hs2 as [| y l2 Hs2 Hy].
    + specialize (Htied (similarity x)). rewrite tied_head in Htied. discriminate.
    + assert (Hxy : x = y).
      { pose proof (Htied (similarity x)) as Htx. rewrite tied_head in Htx.
        pose proof (Htied (similarity y)) as Hty. rewrite tied_head in Hty.
        rewrite tied_cons in Htx.
        destruct (Qeq_bool (similarity y) (similarity x)) eqn:Heq.
        - injection Htx as Hhead _. exact Hhead.
        - exfalso.
          assert (Hx2 : In x l2).
          { eapply tied_in. rewrite <- Htx. left. reflexivity. }
          assert (Hy1 : In y l1).
          { rewrite tied_cons in Hty.
            destruct (Qeq_bool (similarity x) (similarity y)) eqn:Heq'.
            - rewrite Qeq_bool_comm in Heq'. congruence.
            - eapply tied_in. rewrite Hty. left. reflexivity. }
          rewrite Forall_forall in Hx, Hy.
          pose proof (Hx y Hy1) as Hle1. pose proof (Hy x Hx2) as Hle2.
          unfold desc in Hle1, Hle2.
          assert (Hqeq : (similarity y == similarity x)%Q)
            by (apply Qle_antisym; assumption).
          apply Qeq_bool_iff in Hqeq. congruence. }
      subst y. f_equal. apply IH; [exact Hs2 |].
      intros q. specialize (Htied q). rewrite !tied_cons in Htied.
      destruct (Qeq_bool (similarity x) q); [injection Htied as Ht |]; assumption.
Qed.

(** [sort_desc] gives the only arrangement of the scored records that is
    in non-increasing order of similarity and keeps records of equal
    similarity in their original order: every stable descending sort,
    Python's among them, returns this list. *)
Theorem stable_descending_sort_is_unique (scored ranked : list Scored) :
  StronglySorted desc ranked ->
  (forall q, tied q ranked = tied q scored) ->
  ranked = sort_desc scored.
Proof.
  intros Hsorted Htied.
  apply sorted_and_tied_determine;
    [exact Hsorted | apply RankingFacts.sort_desc_sorted |].
  intros q. rewrite Htied, RankingFacts.sort_desc_stable. reflexivity.
Qed.




(** Asking for more never changes what comes first: the results for
    [top_k] are the beginning of the results for any larger [top_k]. *)
Theorem larger_top_k_extends (k k' : Z) (scored : list Scored) :
  (0 <= k <= k')%Z ->
  exists more, top_results k' scored = top_results k scored ++ more.
Proof.
  intros [Hk Hkk']. unfold top_results, slice_to.
  destruct (Z.leb_spec 0 k); [| lia]. destruct (Z.leb_spec 0 k'); [| lia].
  exists (filter above_threshold
            (firstn (Z.to_nat k' - Z.to_nat k) (skipn (Z.to_nat k) scored))).
  rewrite <- filter_app. f_equal.
  rewrite <- (firstn_skipn (Z.to_nat k) scored) at 1.
  rewrite firstn_app, firstn_firstn, length_firstn.
  replace (Nat.min (Z.to_nat k') (Z.to_nat k)) with (Z.to_nat k) by lia.
  f_equal.
  destruct (Nat.le_gt_cases (Z.to_nat k) (List.length scored)) as [Hle | Hgt].
  - f_equal. lia.
  - rewrite skipn_all2 by lia. rewrite !firstn_nil. reflexivity.
Qed.


Import Demo.

Lemma stable_descending_sort_is_unique_witness :
  let scored := map (@score toy_embeddings [1%Q]) demo_entries in
  map s_filename (sort_desc scored) = ["prefs"; "work"; "food"; "edge"; "misc"]%string /\
  sort_desc (sort_desc scored) = sort_desc scored.
Proof.
  intros scored. split; [reflexivity |].
  symmetry.
  apply (stable_descending_sort_is_unique (sort_desc scored) (sort_desc scored)).
  - vm_compute. repeat constructor; intros Hgt; discriminate Hgt.
  - reflexivity.
Defined.


Lemma larger_top_k_extends_witness :
  let scored := sort_desc (map (@score toy_embeddings [1%Q]) demo_entries) in
  exists more, top_results 3 scored = top_results 1 scored ++ more.
Proof.
  intros scored. apply larger_top_k_extends. lia.
Defined.

End RankingMore.

(** ** The embeddings log, once more *)

Module IndexMore.
Import MemoryWithEmbeddings.

Section WithRuntime.
Context `{StrMethods} `{JsonCodec} `{EmbeddingService}.
Local Open Scope string_scope.

Lemma write_note_within (filename content timestamp : string) (append : bool) :
  writes_within [os_path_join MEMORY_DIR (filename ++ ".md")]
    (write_note filename content timestamp append).
Proof.
  unfold write_note. framer.
Qed.

(** What [load_embeddings] returns depends on the log file only. *)
Lemma load_embeddings_same (w1 w2 : World) :
  assoc EMBEDDINGS_FILE (fs w1) = assoc EMBEDDINGS_FILE (fs w2) ->
  fst (load_embeddings w1) = fst (load_embeddings w2).
Proof.
  intros Heq. unfold load_embeddings, bind, os_path_exists.
  rewrite <- Heq.
  destruct (assoc EMBEDDINGS_FILE (fs w1)) as [n |] eqn:Hfile; [| reflexivity].
  unfold read_json. rewrite <- Heq, Hfile.
  destruct n as [text | doc | | e]; reflexivity.
Qed.

Lemma load_embeddings_stored (doc : json_doc) (w : World) :
  assoc EMBEDDINGS_FILE (fs w) = Some (JsonFile doc) ->
  load_embeddings w = (Ret doc, w).
Proof.
  intros Hfile. unfold load_embeddings, bind, os_path_exists.
  rewrite Hfile. unfold read_json. rewrite Hfile. reflexivity.
Qed.

Lemma load_embeddings_missing (w : World) :
  assoc EMBEDDINGS_FILE (fs w) = None ->
  load_embeddings w = (Ret (EmbeddingsDoc []), w).
Proof.
  intros Hfile. unfold load_embeddings, bind, os_path_exists.
  rewrite Hfile. reflexivity.
Qed.

(** Indexing that returns has stored the log it read with one record
    more, the new one last. *)
Lemma index_note_returns (filename content timestamp text : string)
  (w1 w2 : World) :
  index_note filename content timestamp w1 = (Ret text, w2) ->
  exists entries embedding,
    get_embedding content = Ret embedding /\
    load_embeddings w1 = (Ret (EmbeddingsDoc entries), w1) /\
    assoc EMBEDDINGS_FILE (fs w2)
    = Some (JsonFile
              (EmbeddingsDoc
                 (entries ++ [{| e_id := filename ++ "_" ++ timestamp;
                                 e_filename := filename;
                                 e_content := content;
                                 e_timestamp := timestamp;
                                 e_embedding := embedding |}])%list)).
Proof.
  unfold index_note. unfold bind at 1, lift at 1.
  destruct (get_embedding content) as [embedding | e0]; [| discriminate].
  unfold bind at 1.
  destruct (IndexFacts.load_embeddings_reads w1) as [loaded Hload]. rewrite Hload.
  destruct loaded as [data | e0]; [| discriminate].
  unfold bind at 1.
  destruct data as [entries | cp]; cbn [entries_of ret raise]; [| discriminate].
  unfold bind at 1, save_embeddings, bind at 1.
  destruct (open_write EMBEDDINGS_FILE false w1) as [[[] | e0] w3] eqn:Hopen;
    [| discriminate].
  pose proof (json_dump_cases
                (EmbeddingsDoc
                   (entries ++ [{| e_id := filename ++ "_" ++ timestamp;
                                   e_filename := filename;
                                   e_content := content;
                                   e_timestamp := timestamp;
                                   e_embedding := embedding |}])%list)
                EMBEDDINGS_FILE w3) as Hdump.
  destruct (write_fault w3 EMBEDDINGS_FILE); rewrite Hdump; [discriminate |].
  unfold ret. intros [= _ <-]. exists entries, embedding.
  repeat split. apply assoc_fs_set_same.
Qed.

(** When the embedding-backed [memory_write] reports success, the log read
    back afterwards is the log as it was before (the empty log when there
    was no file) with exactly one record added at its end: the record of
    this note, with the minute of the write and the vector the service
    returned for the content. *)
Theorem indexed_write_adds_one_record
  (filename content : string) (append : bool) (w w' : World) :
  memory_write filename content append w
  = (Ret ("✓ Saved to memory: " ++ filename ++ ".md (with embedding)"), w') ->
  exists entries embedding,
    get_embedding content = Ret embedding /\
    load_embeddings w = (Ret (EmbeddingsDoc entries), w) /\
    load_embeddings w'
    = (Ret (EmbeddingsDoc
              (entries
               ++ [{| e_id := filename ++ "_" ++ strftime_minute (clock w);
                      e_filename := filename;
                      e_content := content;
                      e_timestamp := strftime_minute (clock w);
                      e_embedding := embedding |}])%list), w') /\
    (assoc EMBEDDINGS_FILE (fs w) = None -> entries = []).
Proof.
  unfold memory_write. unfold bind at 1, now_strftime_minute at 1.
  unfold bind at 1, try_except at 1, bind at 1.
  pose proof (write_note_within filename content (strftime_minute (clock w))
                append w) as (_ & _ & Hframe).
  destruct (write_note filename content (strftime_minute (clock w)) append w)
    as [[[] | e] w1] eqn:Hnote; cbn [snd] in Hframe.
  2: { unfold ret. intros Heq. discriminate Heq. }
  unfold ret at 1. unfold try_except.
  destruct (index_note filename content (strftime_minute (clock w)) w1)
    as [[text | e] w2] eqn:Hindex.
  2: { unfold ret. intros Heq. discriminate Heq. }
  intros [= -> ->].
  apply index_note_returns in Hindex as (entries & embedding & Hemb & Hload & Hlog).
  assert (Hsame : assoc EMBEDDINGS_FILE (fs w1) = assoc EMBEDDINGS_FILE (fs w)).
  { apply Hframe. cbn [In]. intros [Heq | []].
    apply (IndexFacts.note_path_is_not_the_log filename). symmetry. exact Heq. }
  assert (Hbefore : load_embeddings w = (Ret (EmbeddingsDoc entries), w)).
  { destruct (IndexFacts.load_embeddings_reads w) as [loaded Hw].
    pose proof (load_embeddings_same w w1 (eq_sym Hsame)) as Hfst.
    rewrite Hw, Hload in Hfst. cbn [fst] in Hfst. subst loaded. exact Hw. }
  exists entries, embedding. split; [exact Hemb |]. split; [exact Hbefore |].
  split; [apply load_embeddings_stored; exact Hlog |].
  intros Hnone. rewrite (load_embeddings_missing w Hnone) in Hbefore.
  injection Hbefore as Hentries. symmetry. exact Hentries.
Qed.

(** The embedding-backed [memory_write] never raises and ends in one of
    three reports. When it reports that the note could not be written,
    the embeddings log is as it was: nothing is indexed for a note that
    was not saved. *)
Theorem indexed_write_reports
  (filename content : string) (append : bool) (w : World) :
  exists text w',
    memory_write filename content append w = (Ret text, w') /\
    ((exists e, text = "Error writing memory: " ++ str_exn e /\
                assoc EMBEDDINGS_FILE (fs w') = assoc EMBEDDINGS_FILE (fs w) /\
                fst (load_embeddings w') = fst (load_embeddings w)) \/
     (exists e, text = "Saved to file but embedding failed: " ++ str_exn e) \/
     text = "✓ Saved to memory: " ++ filename ++ ".md (with embedding)").
Proof.
  unfold memory_write. unfold bind at 1, now_strftime_minute at 1.
  unfold bind at 1, try_except at 1, bind at 1.
  pose proof (write_note_within filename content (strftime_minute (clock w))
                append w) as (_ & _ & Hframe).
  destruct (write_note filename content (strftime_minute (clock w)) append w)
    as [[[] | e] w1] eqn:Hnote; cbn [snd] in Hframe.
  - unfold ret at 1. unfold try_except.
    destruct (index_note filename content (strftime_minute (clock w)) w1)
      as [[text | e] w2] eqn:Hindex.
    + exists text, w2. split; [reflexivity |]. right. right.
      revert Hindex. unfold index_note.
      unfold bind at 1. destruct (lift _ w1) as [[embedding | e0] w3]; [| discriminate].
      unfold bind at 1. destruct (load_embeddings w3) as [[data | e0] w4]; [| discriminate].
      unfold bind at 1. destruct (entries_of data w4) as [[entries | e0] w5]; [| discriminate].
      unfold bind at 1. destruct (save_embeddings _ w5) as [[[] | e0] w6]; [| discriminate].
      unfold ret. intros [= <- _]. reflexivity.
    + exists ("Saved to file but embedding failed: " ++ str_exn e), w2.
      split; [reflexivity |]. right. left. exists e. reflexivity.
  - exists ("Error writing memory: " ++ str_exn e), w1.
    split; [reflexivity |]. left. exists e.
    assert (Hsame : assoc EMBEDDINGS_FILE (fs w1) = assoc EMBEDDINGS_FILE (fs w)).
    { apply Hframe. cbn [In]. intros [Heq | []].
      apply (IndexFacts.note_path_is_not_the_log filename). symmetry. exact Heq. }
    split; [reflexivity |]. split; [exact Hsame |].
    apply load_embeddings_same. exact Hsame.
Qed.

(** [memory_list] of the embeddings script asks for the directory listing
    without looking whether the directory is there. With the directory in
    place it answers as the one of [agent_with_memory] does; when the
    directory has been removed it raises, and the dispatcher hands the
    model the error text where [agent_with_memory] says that there are no
    files yet. *)
Theorem unguarded_memory_list (w : World) :
  (assoc MEMORY_DIR (fs w) <> None ->
   memory_list w = AgentWithMemory.memory_list w) /\
  (assoc MEMORY_DIR (fs w) = None ->
   memory_list w = (Raise (no_such_file MEMORY_DIR), w) /\
   execute_tool "memory_list" [] w
   = (Ret "Error: [Errno 2] No such file or directory: './memory'", w) /\
   AgentWithMemory.execute_tool "memory_list" [] w
   = (Ret "No memory files yet.", w)).
Proof.
  split.
  - intros Hdir. unfold memory_list, AgentWithMemory.memory_list,
      AgentWithMemory.MEMORY_DIR, MEMORY_DIR in *.
    unfold bind at 2, os_path_exists.
    destruct (assoc "./memory" (fs w)) as [n |] eqn:Hn; [| congruence].
    cbn [negb]. reflexivity.
  - intros Hdir. unfold MEMORY_DIR in Hdir.
    assert (Hlist : memory_list w = (Raise (no_such_file MEMORY_DIR), w)).
    { unfold memory_list, bind, os_listdir, MEMORY_DIR. rewrite Hdir. reflexivity. }
    split; [exact Hlist |]. split.
    + unfold execute_tool. cbn [assoc TOOL_FUNCTIONS String.eqb Ascii.eqb Bool.eqb].
      unfold try_except, call_memory_list, bind at 1.
      cbn. rewrite Hlist. reflexivity.
    + unfold AgentWithMemory.execute_tool.
      cbn [assoc AgentWithMemory.TOOL_FUNCTIONS String.eqb Ascii.eqb Bool.eqb].
      unfold try_except, AgentWithMemory.call_memory_list, bind at 1.
      unfold bind_kwargs. cbn. unfold AgentWithMemory.MEMORY_DIR.
      rewrite Hdir. reflexivity.
Qed.

End WithRuntime.

Import Demo.

Lemma indexed_write_adds_one_record_witness :
  let w' := snd (@memory_write tiny_json toy_embeddings "prefs" "likes tea" true
                   stocked_world) in
  exists entries embedding,
    @get_embedding toy_embeddings "likes tea" = Ret embedding /\
    @load_embeddings tiny_json stocked_world = (Ret (EmbeddingsDoc entries), stocked_world) /\
    @load_embeddings tiny_json w'
    = (Ret (EmbeddingsDoc
              (entries
               ++ [{| e_id := "prefs_2025-01-01 12:00";
                      e_filename := "prefs";
                      e_content := "likes tea";
                      e_timestamp := "2025-01-01 12:00";
                      e_embedding := embedding |}])%list), w') /\
    (assoc EMBEDDINGS_FILE (fs stocked_world) = None -> entries = []).
Proof.
  intros w'.
  apply (@indexed_write_adds_one_record tiny_json toy_embeddings
           "prefs" "likes tea" true stocked_world w').
  reflexivity.
Defined.

End IndexMore.

(** ** The agent with behaviours *)

Module BehaviorsMore.
Import AgentWithBehaviors.

Section WithRuntime.
Context `{StrMethods} `{JsonCodec}.
Local Open Scope string_scope.

Lemma execute_decoded_returns (name : string) (args : value) (w : World) :
  exists text w', execute_decoded name args w = (Ret text, w').
Proof.
  unfold execute_decoded.
  destruct args;
    try (destruct (assoc name TOOL_FUNCTIONS); eexists _, _; reflexivity).
  apply DispatcherFacts.behaviors_execute_tool_returns.
Qed.



(** [memory_write] of this script and the appending [memory_write] of
    [agent_with_memory] do the same to the disk. They differ in what they
    say, and in that this one lets the error out, for the dispatcher to
    report, where the other returns its own error text. *)
Theorem memory_write_siblings (filename content : string) (w : World) :
  match memory_write filename content w with
  | (Ret text, w') =>
      text = "✓ Saved to " ++ filename ++ ".md" /\
      AgentWithMemory.memory_write filename content true w
      = (Ret ("✓ Saved to memory: " ++ filename ++ ".md"), w')
  | (Raise e, w') =>
      AgentWithMemory.memory_write filename content true w
      = (Ret ("Error writing memory: " ++ str_exn e), w') /\
      execute_tool "memory_write"
        [("filename", VStr filename); ("content", VStr content)] w
      = (Ret ("Error: " ++ str_exn e), w')
  end.
Proof.
  assert (Hcall :
    execute_tool "memory_write"
      [("filename", VStr filename); ("content", VStr content)] w
    = try_except (memory_write filename content)
        (fun e => ret ("Error: " ++ str_exn e)) w) by reflexivity.
  rewrite Hcall. clear Hcall.
  cbv beta iota zeta delta [AgentWithMemory.memory_write memory_write try_except
    bind ret negb now_strftime_minute AgentWithMemory.MEMORY_DIR MEMORY_DIR].
  destruct (open_write _ true w) as [[[] | e] w0]; [| split; reflexivity].
  destruct (f_write _ _ w0) as [[[] | e] w1]; split; reflexivity.
Qed.

(** The searching loops of the two scripts, side by side. *)
Lemma search_notes_siblings (query_lower : string) (filenames results : list string)
  (w : World) :
  match search_notes query_lower filenames results w with
  | (Ret hits, w') =>
      w' = w /\
      AgentWithMemory.search_notes query_lower filenames results w = (Ret hits, w)
  | (Raise e, w') =>
      w' = w /\
      exists filename,
        In filename filenames /\ endswith filename ".md" = true /\
        fst (read_text (os_path_join MEMORY_DIR filename) w) = Raise e
  end.
Proof.
  revert results. induction filenames as [| filename rest IH]; intros results;
    cbn [search_notes AgentWithMemory.search_notes].
  - split; reflexivity.
  - destruct (endswith filename ".md") eqn:Hmd.
    + cbv beta iota zeta delta [bind try_except ret
        AgentWithMemory.MEMORY_DIR MEMORY_DIR].
      pose proof (read_text_world (os_path_join "./memory" filename) w) as Hworld.
      destruct (read_text (os_path_join "./memory" filename) w)
        as [[content | e] w0] eqn:Hread; cbn [snd] in Hworld; subst w0.
      * destruct (contains query_lower (lower content)).
        -- specialize
             (IH (results
                  ++ [("=== " ++ filename ++ " ===" ++ nl ++ content)%string])%list).
           destruct (search_notes _ rest _ w) as [[hits | e] w'].
           ++ exact IH.
           ++ destruct IH as (Hw & name & Hin & Hname & Hfail).
              split; [exact Hw |]. exists name. split; [right; exact Hin |].
              split; assumption.
        -- specialize (IH results).
           destruct (search_notes _ rest _ w) as [[hits | e] w'].
           ++ exact IH.
           ++ destruct IH as (Hw & name & Hin & Hname & Hfail).
              split; [exact Hw |]. exists name. split; [right; exact Hin |].
              split; assumption.
      * split; [reflexivity |]. exists filename. split; [left; reflexivity |].
        split; [exact Hmd |]. unfold MEMORY_DIR. rewrite Hread. reflexivity.
    + specialize (IH results).
      destruct (search_notes _ rest _ w) as [[hits | e] w'].
      * exact IH.
      * destruct IH as (Hw & name & Hin & Hname & Hfail).
        split; [exact Hw |]. exists name. split; [right; exact Hin |].
        split; assumption.
Qed.

Lemma search_with_directory (query : string) (w : World) :
  assoc MEMORY_DIR (fs w) = Some Dir ->
  memory_search query w
  = match search_notes (lower query) (children MEMORY_DIR (fs w)) [] w with
    | (Ret results, w') =>
        (Ret match results with
             | _ :: _ => join (nl ++ nl) results
             | [] => "No memories found for '" ++ query ++ "'"
             end, w')
    | (Raise e, w') => (Raise e, w')
    end.
Proof.
  intros Hdir. unfold memory_search.
  unfold bind at 1, os_path_exists at 1. rewrite Hdir.
  unfold bind at 1. unfold bind at 1, os_listdir at 1. rewrite Hdir.
  destruct (search_notes (lower query) (children MEMORY_DIR (fs w)) [] w)
    as [[[| hit hits] | e] w']; reflexivity.
Qed.

Lemma sibling_search_with_directory (query : string) (w : World) :
  assoc AgentWithMemory.MEMORY_DIR (fs w) = Some Dir ->
  AgentWithMemory.memory_search query w
  = match AgentWithMemory.search_notes (lower query)
            (children AgentWithMemory.MEMORY_DIR (fs w)) [] w with
    | (Ret results, w') =>
        (Ret match results with
             | _ :: _ => join (nl ++ nl) results
             | [] => "No memories found matching '" ++ query ++ "'"
             end, w')
    | (Raise e, w') => (Raise e, w')
    end.
Proof.
  intros Hdir. unfold AgentWithMemory.memory_search.
  unfold bind at 1, os_path_exists at 1. rewrite Hdir. cbn [negb].
  unfold bind at 1, os_listdir at 1. rewrite Hdir.
  unfold bind at 1.
  destruct (AgentWithMemory.search_notes (lower query)
              (children AgentWithMemory.MEMORY_DIR (fs w)) [] w)
    as [[[| hit hits] | e] w']; reflexivity.
Qed.

(** [memory_search] of this script has no handler in its loop. With the
    memory directory in place: when it returns, it has changed nothing and
    found the notes the search of [agent_with_memory] finds (only the
    sentence for no match differs); when it raises, it has changed nothing
    either, and some note ending in [.md] could not be read, with that
    very error, which the other search would have passed over. *)
Theorem search_stops_at_unreadable_note (query : string) (w : World) :
  assoc MEMORY_DIR (fs w) = Some Dir ->
  match memory_search query w with
  | (Ret text, w') =>
      w' = w /\
      (AgentWithMemory.memory_search query w = (Ret text, w) \/
       (text = "No memories found for '" ++ query ++ "'" /\
        AgentWithMemory.memory_search query w
        = (Ret ("No memories found matching '" ++ query ++ "'"), w)))
  | (Raise e, w') =>
      w' = w /\
      exists filename,
        In filename (children MEMORY_DIR (fs w)) /\
        endswith filename ".md" = true /\
        fst (read_text (os_path_join MEMORY_DIR filename) w) = Raise e
  end.
Proof.
  intros Hdir.
  rewrite (search_with_directory query w Hdir).
  rewrite (sibling_search_with_directory query w Hdir).
  pose proof (search_notes_siblings (lower query)
                (children MEMORY_DIR (fs w)) [] w) as Hloop.
  destruct (search_notes (lower query) (children MEMORY_DIR (fs w)) [] w)
    as [[hits | e] w'].
  - destruct Hloop as (-> & Hother).
    change AgentWithMemory.MEMORY_DIR with MEMORY_DIR. rewrite Hother.
    destruct hits as [| hit hits].
    + split; [reflexivity |]. right. split; reflexivity.
    + split; [reflexivity |]. left. reflexivity.
  - exact Hloop.
Qed.

End WithRuntime.

Section WithService.
Import AgentWithMemory.
Context `{StrMethods} `{JsonCodec} `{CompletionService}.

(** The requests that can be previewed are run one after the other, and
    each leaves one tool message. *)
Lemma run_previewable (before rest : list ToolCall) (s : Session) :
  forallb previewable before = true ->
  exists results s1,
    List.length results = List.length before /\
    messages s1 = messages s ++ tool_messages before results /\
    log s1 = log s /\
    AgentWithBehaviors.run_tool_calls (before ++ rest) s
    = AgentWithBehaviors.run_tool_calls rest s1.
Proof.
  revert s. induction before as [| tc before IH]; intros s Hall.
  - exists [], s. cbn [tool_messages combine map List.length app].
    rewrite app_nil_r. repeat split.
  - cbn [forallb] in Hall. apply andb_true_iff in Hall as [Htc Hall].
    unfold previewable in Htc.
    cbn [app AgentWithBehaviors.run_tool_calls].
    destruct (json_loads (tc_arguments tc)) as [args | e]; [| discriminate].
    destruct (arg_preview args) as [[] | e]; [| discriminate].
    destruct (execute_decoded_returns (tc_name tc) args (world s))
      as (result & w' & Hrun).
    rewrite Hrun.
    destruct (IH (append_message (tool_message (tc_id tc) result) (with_world s w')) Hall)
      as (results & s1 & Hlen & Hmsgs & Hlog & Hrest).
    exists (result :: results), s1.
    split; [cbn [List.length]; congruence |].
    split; [| split; [exact Hlog | exact Hrest]].
    rewrite Hmsgs. cbn [append_message with_world messages].
    rewrite <- app_assoc. reflexivity.
Qed.

(** A batch of requests completes, with one tool message per request in
    the order of the requests, when the arguments of every request decode
    and can be previewed. It stops at the first request of which they
    cannot, with an exception that ends [main]: the requests before it
    have been run and answered, that one and the ones after it have
    not. *)
Theorem batch_stops_at_first_unpreviewable (calls : list ToolCall) (s : Session) :
  (forallb previewable calls = true ->
   exists results s',
     AgentWithBehaviors.run_tool_calls calls s = (None, s') /\
     List.length results = List.length calls /\
     messages s' = messages s ++ tool_messages calls results) /\
  (forall before tc after,
     calls = before ++ tc :: after ->
     forallb previewable before = true ->
     previewable tc = false ->
     exists e results s',
       AgentWithBehaviors.run_tool_calls calls s = (Some e, s') /\
       List.length results = List.length before /\
       messages s' = messages s ++ tool_messages before results).
Proof.
  split.
  - intros Hall.
    destruct (run_previewable calls [] s Hall)
      as (results & s1 & Hlen & Hmsgs & _ & Hrun).
    rewrite app_nil_r in Hrun. exists results, s1.
    split; [exact Hrun |]. split; assumption.
  - intros before tc after -> Hall Htc.
    destruct (run_previewable before (tc :: after) s Hall)
      as (results & s1 & Hlen & Hmsgs & _ & Hrun).
    rewrite Hrun. cbn [AgentWithBehaviors.run_tool_calls].
    unfold previewable in Htc.
    destruct (json_loads (tc_arguments tc)) as [args | e].
    + destruct (arg_preview args) as [[] | e]; [discriminate |].
      exists e, results, s1. repeat split; assumption.
    + exists e, results, s1. repeat split; assumption.
Qed.

(** A request whose first argument is a number, a boolean or [null] ends
    the program: taking the preview raises a [TypeError] that nothing
    catches. The tool is not run, the disk is as it was, and the history
    ends with the assistant message of the request. *)
Theorem unsliceable_first_argument_ends_main
  (fuel : nat) (line : string) (rest : list string) (s : Session)
  (reply : AssistantMessage) (tc : ToolCall) (others : list ToolCall)
  (key : string) (first : value) (more : kwargs) :
  let user_input := strip line in
  let history := keep_recent (messages s ++ [user_message user_input]) in
  String.eqb (lower user_input) "quit" = false ->
  String.eqb user_input "" = false ->
  chat_completions_create (List.length (log s)) history = Ret reply ->
  am_tool_calls reply = Some (tc :: others) ->
  json_loads (tc_arguments tc) = Ret (VDict ((key, first) :: more)) ->
  (first = VNull \/ (exists b, first = VBool b) \/ (exists q, first = VNum q)) ->
  exists e s',
    AgentWithBehaviors.main_loop (S fuel) (line :: rest) s = (Uncaught e, s') /\
    exn_cls e = TypeError /\
    world s' = world s /\
    messages s'
    = history ++ [assistant_message (am_content reply) (Some (tc :: others))].
Proof.
  intros user_input history Hquit Hempty Hreply Hcalls Hargs Hfirst.
  cbn [AgentWithBehaviors.main_loop]. fold user_input.
  rewrite Hquit, Hempty.
  cbn [AgentWithBehaviors.model_turns append_message messages world log
       record_invocation].
  fold history. rewrite Hreply, Hcalls.
  cbn [AgentWithBehaviors.run_tool_calls]. rewrite Hargs.
  destruct Hfirst as [-> | [[b ->] | [q ->]]]; cbn [arg_preview truthy];
    eexists _, _; (split; [reflexivity |]); repeat split.
Qed.

End WithService.

Import Demo.

Lemma search_stops_at_unreadable_note_witness :
  @memory_search ascii_str tiny_json "blue" stocked_world
  = (Raise (mkExn OSError "Permission denied"), stocked_world) /\
  @AgentWithMemory.memory_search ascii_str tiny_json "blue" stocked_world
  = (Ret ("=== prefs.md ===" ++ nl ++ nl ++ "## [2024-12-31 09:00]" ++ nl
          ++ "Favorite color is Blue" ++ nl)%string, stocked_world) /\
  exists filename,
    In filename (children MEMORY_DIR (fs stocked_world)) /\
    endswith filename ".md" = true /\
    fst (@read_text tiny_json (os_path_join MEMORY_DIR filename) stocked_world)
    = Raise (mkExn OSError "Permission denied").
Proof.
  split; [reflexivity |]. split; [reflexivity |].
  pose proof (@search_stops_at_unreadable_note ascii_str tiny_json
                "blue" stocked_world eq_refl) as Hsearch.
  change (@memory_search ascii_str tiny_json "blue" stocked_world)
    with (@Raise string (mkExn OSError "Permission denied"), stocked_world)
    in Hsearch.
  destruct Hsearch as (_ & Hnote). exact Hnote.
Defined.


Lemma unsliceable_first_argument_ends_main_witness :
  exists e s',
    @AgentWithBehaviors.main ascii_str small_json
      (one_call_model "get_current_time" json_count)
      1 ["what time is it?"%string] fresh_world
    = (AgentWithMemory.Uncaught e, s') /\
    exn_cls e = TypeError /\
    AgentWithMemory.world s' = fresh_world.
Proof.
  destruct (@unsliceable_first_argument_ends_main ascii_str small_json
              (one_call_model "get_current_time" json_count)
              0 "what time is it?" []
              {| AgentWithMemory.messages :=
                   [AgentWithMemory.system_message
                      "You are a helpful assistant named Microwave."];
                 AgentWithMemory.world := fresh_world;
                 AgentWithMemory.log := [] |}
              _ _ _ "n" (VNum 5) []
              eq_refl eq_refl eq_refl eq_refl eq_refl
              (or_intror (or_intror (ex_intro _ 5%Q eq_refl))))
    as (e & s' & Hmain & Hcls & Hworld & _).
  exists e, s'. split; [exact Hmain |]. split; [exact Hcls | exact Hworld].
Defined.

End BehaviorsMore.

(** ** Reading a note, in the three scripts *)

Module ReadMore.
Section WithRuntime.
Context `{JsonCodec}.
Local Open Scope string_scope.

(** The three [memory_read]s look for the same file and return its text
    when it can be read. For a missing file each returns a sentence of its
    own. For a file that cannot be read for another reason,
    [agent_with_memory] returns an error text, and the other two let the
    exception out. None changes anything. *)
Theorem memory_read_siblings (filename : string) (w : World) :
  let name := if endswith filename ".md" then filename else filename ++ ".md" in
  match fst (read_text (os_path_join "./memory" name) w) with
  | Ret text =>
      AgentWithMemory.memory_read filename w = (Ret text, w) /\
      MemoryWithEmbeddings.memory_read filename w = (Ret text, w) /\
      AgentWithBehaviors.memory_read filename w = (Ret text, w)
  | Raise e =>
      if is_FileNotFoundError e then
        AgentWithMemory.memory_read filename w
        = (Ret ("Memory file not found: " ++ name), w) /\
        MemoryWithEmbeddings.memory_read filename w
        = (Ret ("Memory file not found: " ++ name), w) /\
        AgentWithBehaviors.memory_read filename w
        = (Ret ("File not found: " ++ name), w)
      else
        AgentWithMemory.memory_read filename w
        = (Ret ("Error reading memory: " ++ str_exn e), w) /\
        MemoryWithEmbeddings.memory_read filename w = (Raise e, w) /\
        AgentWithBehaviors.memory_read filename w = (Raise e, w)
  end.
Proof.
  cbv beta iota zeta delta [AgentWithMemory.memory_read
    MemoryWithEmbeddings.memory_read AgentWithBehaviors.memory_read
    AgentWithMemory.MEMORY_DIR MemoryWithEmbeddings.MEMORY_DIR
    AgentWithBehaviors.MEMORY_DIR try_except_FileNotFoundError try_except].
  destruct (endswith filename ".md"); cbn [negb];
    match goal with
    | |- context [read_text ?path w] =>
        pose proof (read_text_world path w) as Hworld;
        destruct (read_text path w) as [[text | e] w0];
        cbn [fst snd] in *; subst w0
    end;
    try (repeat split; fail);
    destruct (is_FileNotFoundError e); repeat split.
Qed.

End WithRuntime.
End ReadMore.

(** ** More concrete runs *)

Module MoreRuns.
Import Demo.

(** Without the memory directory the listing of the embeddings script
    fails where the one of [agent_with_memory] answers. *)
Example listing_without_directory :
  @MemoryWithEmbeddings.execute_tool tiny_json toy_embeddings
    "memory_list" [] bare_world
  = (Ret "Error: [Errno 2] No such file or directory: './memory'"%string,
     bare_world) /\
  @AgentWithMemory.execute_tool ascii_str tiny_json "memory_list" [] bare_world
  = (Ret "No memory files yet."%string, bare_world).
Proof.
  split; reflexivity.
Qed.

(** A file written with [write_file] reads back; on a disk that refuses
    writes the file that was to be replaced is left empty. *)
Example write_file_on_two_disks :
  (let w' := snd (@AgentWithBehaviors.write_file tiny_json
                    "./memory/todo.md" "buy bread" stocked_world) in
   @AgentWithBehaviors.read_file tiny_json "./memory/todo.md" w'
   = (Ret "buy bread"%string, w')) /\
  (let (said, w') := @AgentWithBehaviors.write_file tiny_json
                       "./memory/todo.md" "buy bread" refusing_world in
   said = Ret "Error: [Errno 28] No space left on device"%string /\
   @AgentWithBehaviors.read_file tiny_json "./memory/todo.md" refusing_world
   = (Ret "buy milk"%string, refusing_world) /\
   @AgentWithBehaviors.read_file tiny_json "./memory/todo.md" w'
   = (Ret ""%string, w')).
Proof.
  split; [reflexivity |]. cbv zeta. vm_compute. repeat split.
Qed.

(** The request that ends the agent with behaviours is answered with an
    error text by [agent_with_memory], which then goes on. *)
Example numeric_argument_in_the_two_loops :
  fst (@AgentWithBehaviors.main ascii_str small_json
         (one_call_model "get_current_time" json_count)
         2 ["what time is it?"%string; "quit"%string] fresh_world)
  = AgentWithMemory.Uncaught
      (mkExn TypeError "'int' object is not subscriptable") /\
  fst (@AgentWithMemory.main ascii_str small_json
         (one_call_model "get_current_time" json_count)
         2 ["what time is it?"%string; "quit"%string] fresh_world)
  = AgentWithMemory.Exited.
Proof.
  split; vm_compute; reflexivity.
Qed.

(** A request whose first argument is a text goes through. *)
Example text_argument_in_the_behaviours_loop :
  let (ended, s) :=
    @AgentWithBehaviors.main ascii_str small_json
      (one_call_model "list_files" json_path)
      2 ["what is here?"%string; "quit"%string] stocked_world in
  ended = AgentWithMemory.Exited /\
  map AgentWithMemory.role (AgentWithMemory.messages s)
  = [AgentWithMemory.system; AgentWithMemory.user; AgentWithMemory.assistant;
     AgentWithMemory.tool; AgentWithMemory.assistant].
Proof.
  vm_compute. split; reflexivity.
Qed.

End MoreRuns.
